(** * The train / validate / checkpoint loop of [example.py]

    A shallow embedding of [trainval], [get_loader], [get_model] and the
    [MLP] class.  Python objects that the program mutates in place are
    threaded explicitly; everything the interpreter can observe from the
    outside (files, the random generator, the gradient mode, the printed
    lines, the sequence of framework calls) lives in one [World] record that
    survives a raised exception. *)

From Stdlib Require Import ZArith Lia.
From Stdlib Require Import SpecFloat.
From stdpp Require Import gmap strings list fin_maps pretty.

Open Scope Z_scope.

(** ** Python numbers *)

(** A Python [float] is an IEEE-754 binary64 number. *)
Definition float : Type := spec_float.

Definition fadd : float -> float -> float := SFadd 53 1024.
Definition fdiv : float -> float -> float := SFdiv 53 1024.

(** [0.] *)
Definition fzero : float := S754_zero false.

(** [float(n)] for a Python [int] (round to nearest even).  Every integer
    converted by the program is a [len()] or a sum of batch sizes, far
    below the overflow threshold. *)
Definition float_of_int (n : Z) : float := binary_normalize 53 1024 n 0 false.

(** The literal [1e-3]: the binary64 number nearest to 1/1000. *)
Definition lr_1e_3 : float := S754_finite false 4611686018427388 (-62).

(** [p * 2 ^ k] on positive numbers, for [0 <= k]. *)
Definition pshift (p : positive) (k : Z) : positive :=
  match k with
  | Zpos q => Pos.iter xO p q
  | _ => p
  end.

(** ** Exceptions *)

Inductive exn : Set :=
| ZeroDivisionError
| TypeError
| AttributeError
| KeyError
| IndexError
| ValueError
| RuntimeError
| DeserializationError
| NameError.

Inductive Result (A : Type) : Type :=
| Ok (a : A)
| Raise (e : exn).
Arguments Ok {A} a.
Arguments Raise {A} e.

(** ** Configurations *)

(** The values an experiment dictionary holds. *)
Inductive Value : Type :=
| VStr (s : string)
| VInt (z : Z)
| VFloat (f : float).

(** [exp_dict]: hyperparameter name to value. *)
Abbreviation ExpDict := (gmap string Value).

(** A path is the list of its components: [os.path.join(p, name)] appends
    one component. *)
Abbreviation Path := (list string).

Definition path_join (p : Path) (name : string) : Path := p ++ [name].

(** One record of the score history:
    [{'train_loss': .., 'val_acc': .., 'epoch': ..}]. *)
Record ScoreDict : Type := mkScore {
  train_loss : float;
  val_acc : float;
  epoch : Z
}.

(** ** The deep-learning framework, as consumed by the program *)

Inductive Reduction : Set := RedNone | RedMean | RedSum.

(** Hyperparameters of the single parameter group of [torch.optim.SGD]. *)
Record ParamGroup : Type := mkGroup {
  lr : float;
  momentum : float;
  dampening : float;
  weight_decay : float;
  nesterov : bool
}.

(** A batch of labels (a one-dimensional integer tensor). *)
Abbreviation Labels := (list Z).

(** The operations of torch / torchvision the source calls.  They are
    third-party code: the program is verified against this interface. *)
Class Torch : Type := {
  Tensor : Type;
  Generator : Type;
  Dataset : Type;
  DataLoader : Type;
  (** the dataset files kept on disk under a root directory *)
  Store : Type;
  (** [torchvision.datasets.MNIST(root, train=.., download=True,
      transform=..)]: reads the dataset files under [root], after
      fetching them there when they are missing, which writes under
      [root] and can fail *)
  MNIST : Path -> bool -> Store -> Result Dataset * Store;
  (** [DataLoader(dataset, shuffle=.., batch_size=..)], [len(loader)] and
      one pass of [iter(loader)], which draws the permutation from the
      generator *)
  DataLoader_new : Dataset -> bool -> Z -> DataLoader;
  loader_len : DataLoader -> Z;
  loader_iter : DataLoader -> Generator -> list (Tensor * Labels) * Generator;
  loader_iter_len : forall l g,
    Z.of_nat (length (fst (loader_iter l g))) = loader_len l;
  (** [nn.Linear(in_features, out_features)]: initial weight and bias *)
  Linear_init : Z -> Z -> Generator -> (Tensor * Tensor) * Generator;
  shape : Tensor -> list Z;
  (** [x.view(-1, n)] *)
  view_rows : Tensor -> Z -> option Tensor;
  (** [F.linear(input, weight, bias)] *)
  F_linear : Tensor -> Tensor -> Tensor -> option Tensor;
  F_relu : Tensor -> Tensor;
  (** [F.log_softmax(x, dim=1)] *)
  F_log_softmax : Tensor -> Tensor;
  (** [F.nll_loss(input, target, reduction=..)] *)
  F_nll_loss : Reduction -> Tensor -> Labels -> option Tensor;
  (** [x.argmax(dim=1)] *)
  argmax : Tensor -> Labels;
  (** [x.item()] *)
  item : Tensor -> float;
  (** gradients of a scalar with respect to the given leaves *)
  autograd_grad : Tensor -> list Tensor -> list Tensor;
  tensor_add : Tensor -> Tensor -> Tensor;
  (** the update [torch.optim.SGD.step] applies to one parameter: data,
      gradient and momentum buffer in, data and buffer out *)
  sgd_update : ParamGroup -> Tensor -> Tensor -> option Tensor ->
               Tensor * option Tensor
}.

(** Helpers of the experiment library whose bodies the program does not
    contain. *)
Class Haven : Type := {
  (** [hu.hash_dict]: the identifier of a configuration *)
  hash_dict : ExpDict -> string
}.

(** ** Model objects *)

Section Objects.
Context {T : Torch}.

(** A batch as the loader yields it: [(images, labels)]. *)
Definition Batch : Type := Tensor * Labels.

(** [nn.Parameter]: the tensor and its accumulated gradient ([None] after
    [zero_grad]). *)
Record Param : Type := mkParam {
  data : Tensor;
  grad : option Tensor
}.

(** [nn.Linear] *)
Record Linear : Type := mkLinear {
  weight : Param;
  bias : Param
}.

(** [torch.optim.SGD] without the parameters themselves: the optimizer
    holds references to the module's parameter objects, so the only copy
    of those lives in the module.  [momentum_buffers] has one entry per
    parameter, in [parameters()] order. *)
Record SGD : Type := mkSGD {
  param_group : ParamGroup;
  momentum_buffers : list (option Tensor)
}.

(** The class [MLP]. *)
Record MLP : Type := mkMLP {
  training : bool;
  input_size : Z;
  hidden_layers : list Linear;
  output_layer : Linear;
  opt : SGD
}.

(** What [get_state_dict] returns:
    [{'model': self.state_dict(), 'opt': self.opt.state_dict()}].  The
    keys of the module's dictionary are dotted names, kept as component
    lists: [hidden_layers.0.weight] is [["hidden_layers"; "0"; "weight"]]. *)
Record StateDict : Type := mkStateDict {
  sd_model : gmap (list string) Tensor;
  sd_opt : SGD
}.

(** Contents of the three files of a checkpoint directory. *)
Inductive File : Type :=
| FJson (e : ExpDict)
| FPth (s : StateDict)
| FPkl (l : list ScoreDict).

(** Lines written to standard output, with the arguments of their format
    strings. *)
Inductive Line : Type :=
| PExpDict (e : ExpDict)
| PSavedIn (p : Path)
| PStart (s_epoch : Z)
| PTrainLoss (i : Z) (x : float)
| PValScore (i : Z) (x : float)
| PScoreTail (l : list ScoreDict)
| PCheckpoint (p : Path)
| PCompleted.

(** Framework calls of a training or prediction step, each logged with
    the gradient mode it ran under. *)
Inductive Op : Set :=
| OpZeroGrad
| OpForward
| OpLogSoftmax
| OpNllLoss (r : Reduction)
| OpBackward
| OpStep
| OpArgmax.

Record Call : Set := mkCall {
  call_op : Op;
  call_grad : bool
}.

(** Everything outside the Python objects. *)
Record World : Type := mkWorld {
  fs : gmap Path File;
  backup : gmap Path File;
  store : Store;
  rng : Generator;
  grad_enabled : bool;
  stdout : list Line;
  calls : list Call
}.

Definition set_fs (f : gmap Path File -> gmap Path File) (w : World) : World :=
  mkWorld (f (fs w)) (backup w) (store w) (rng w) (grad_enabled w) (stdout w)
          (calls w).
Definition set_backup (f : gmap Path File -> gmap Path File) (w : World) : World :=
  mkWorld (fs w) (f (backup w)) (store w) (rng w) (grad_enabled w) (stdout w)
          (calls w).
Definition set_store (s : Store) (w : World) : World :=
  mkWorld (fs w) (backup w) s (rng w) (grad_enabled w) (stdout w) (calls w).
Definition set_rng (g : Generator) (w : World) : World :=
  mkWorld (fs w) (backup w) (store w) g (grad_enabled w) (stdout w) (calls w).
Definition set_grad_enabled (b : bool) (w : World) : World :=
  mkWorld (fs w) (backup w) (store w) (rng w) b (stdout w) (calls w).
Definition add_stdout (l : Line) (w : World) : World :=
  mkWorld (fs w) (backup w) (store w) (rng w) (grad_enabled w) (stdout w ++ [l])
          (calls w).
Definition add_call (o : Op) (w : World) : World :=
  mkWorld (fs w) (backup w) (store w) (rng w) (grad_enabled w) (stdout w)
          (calls w ++ [mkCall o (grad_enabled w)]).

(** ** The monad of the interpreter: state, and exceptions that keep it *)

Definition M (A : Type) : Type := World -> Result A * World.

Definition ret {A} (a : A) : M A := fun w => (Ok a, w).

Definition bind {A B} (m : M A) (k : A -> M B) : M B :=
  fun w => match m w with
           | (Ok a, w') => k a w'
           | (Raise e, w') => (Raise e, w')
           end.

Definition raise {A} (e : exn) : M A := fun w => (Raise e, w).

Definition modify (f : World -> World) : M unit := fun w => (Ok tt, f w).

Definition gets {A} (f : World -> A) : M A := fun w => (Ok (f w), w).

Definition lift {A} (r : Result A) : M A := fun w => (r, w).

End Objects.

Declare Scope py_scope.
Delimit Scope py_scope with py.
Notation "x <- m ;; k" := (bind m (fun x => k))
  (at level 20, m at level 99, k at level 200, only parsing) : py_scope.
Notation "' p <- m ;; k" := (bind m (fun p => k))
  (at level 20, p pattern, m at level 99, k at level 200, only parsing) : py_scope.
Notation "m ;; k" := (bind m (fun _ => k))
  (at level 100, k at level 200, right associativity, only parsing) : py_scope.
Open Scope py_scope.

(** ** Builtins and the helpers of the experiment library *)

Section Program.
Context {T : Torch} {H : Haven}.

Definition print (l : Line) : M unit := modify (add_stdout l).

Definition log_call (o : Op) : M unit := modify (add_call o).

(** [a % b] on integers.  Python rounds towards minus infinity, as
    [Z.modulo] does, and raises on a zero divisor. *)
Definition py_mod (a b : Z) : M Z :=
  if b =? 0 then raise ZeroDivisionError else ret (a mod b).

(** [x / n] for a float [x] and an integer [n]. *)
Definition py_truediv (x : float) (n : Z) : M float :=
  if n =? 0 then raise ZeroDivisionError else ret (fdiv x (float_of_int n)).

(** [d[k]] *)
Definition getitem (d : ExpDict) (k : string) : M Value :=
  match d !! k with
  | Some v => ret v
  | None => raise KeyError
  end.

(** [v == 'literal'] *)
Definition py_eq_str (v : Value) (s : string) : bool :=
  match v with
  | VStr s' => bool_decide (s' = s)
  | _ => false
  end.

(** Looking up a method on an object that may be [None]. *)
Definition attr {A} (o : option A) : M A :=
  match o with
  | Some a => ret a
  | None => raise AttributeError
  end.

(** [len(loader)] *)
Definition py_len (o : option DataLoader) : M Z :=
  match o with
  | Some l => ret (loader_len l)
  | None => raise TypeError
  end.

(** The batches of one pass, [enumerate(loader)]. *)
Definition py_iter (o : option DataLoader) : M (list Batch) :=
  match o with
  | Some l => fun w => let '(bs, g) := loader_iter l (rng w) in (Ok bs, set_rng g w)
  | None => raise TypeError
  end.

(** [range(a, b)] *)
Definition py_range (a : Z) (b : Value) : M (list Z) :=
  match b with
  | VInt z => ret (seqZ a (z - a))
  | _ => raise TypeError
  end.

(** [score_list[-1]] *)
Definition py_last (l : list ScoreDict) : M ScoreDict :=
  match last l with
  | Some r => ret r
  | None => raise IndexError
  end.

(** [os.path.exists] *)
Definition path_exists (p : Path) : M bool :=
  gets (fun w => bool_decide (is_Some (fs w !! p))).

(** [os.makedirs(p, exist_ok=True)]: a directory is the common prefix of
    the files it holds, so creating an empty one leaves the file table as
    it is. *)
Definition makedirs (p : Path) : M unit := ret tt.

(** Modelled from the spec: [hu.save_json], the JSON-like save of the
    configuration mapping. *)
Definition save_json (p : Path) (e : ExpDict) : M unit :=
  modify (set_fs (insert p (FJson e))).

(** Modelled from the spec: [hu.torch_save], which persists the model
    state as an opaque blob keyed by the checkpoint path. *)
Definition torch_save (p : Path) (s : StateDict) : M unit :=
  modify (set_fs (insert p (FPth s))).

(** Modelled from the spec: [hu.save_pkl], the pickle-like save of the
    score-history sequence. *)
Definition save_pkl (p : Path) (l : list ScoreDict) : M unit :=
  modify (set_fs (insert p (FPkl l))).

(** Modelled from the spec: [hu.torch_load]; a missing or corrupt file
    fails with a deserialization error. *)
Definition torch_load (p : Path) : M StateDict :=
  f <- gets (fun w => fs w !! p) ;;
  match f with
  | Some (FPth s) => ret s
  | _ => raise DeserializationError
  end.

(** Modelled from the spec: [hu.load_pkl], the pickle-like load of the
    score-history sequence; a missing or corrupt file fails with a
    deserialization error. *)
Definition load_pkl (p : Path) : M (list ScoreDict) :=
  f <- gets (fun w => fs w !! p) ;;
  match f with
  | Some (FPkl l) => ret l
  | _ => raise DeserializationError
  end.

(** Modelled from the spec: [hc.delete_experiment(savedir,
    backup_flag=True)], the checkpoint deletion/backup utility: the prior
    contents of the directory are preserved only in a backup location, not
    in the active directory. *)
Definition delete_experiment (savedir : Path) (backup_flag : bool) : M unit :=
  modify (fun w =>
    let inside := filter (fun kv => savedir `prefix_of` kv.1) (fs w) in
    let outside := filter (fun kv => ~ savedir `prefix_of` kv.1) (fs w) in
    set_fs (fun _ => outside)
      (if backup_flag then set_backup (fun b => inside ∪ b) w else w)).

(** ** The class [MLP] *)

(** [self.parameters()]: the hidden layers in order, then the output
    layer; within a layer the weight, then the bias. *)
Definition linear_parameters (l : Linear) : list Param := [weight l; bias l].

Definition module_parameters (hl : list Linear) (ol : Linear) : list Param :=
  concat (linear_parameters <$> hl) ++ linear_parameters ol.

Definition parameters (self : MLP) : list Param :=
  module_parameters (hidden_layers self) (output_layer self).

(** Apply [f] to every parameter in place; [f] receives the position of
    the parameter in [parameters()]. *)
Definition imap_params (f : nat -> Param -> Param) (self : MLP) : MLP :=
  let n := length (hidden_layers self) in
  {| training := training self;
     input_size := input_size self;
     hidden_layers :=
       imap (fun k l => mkLinear (f (2 * k)%nat (weight l))
                                 (f (2 * k + 1)%nat (bias l)))
            (hidden_layers self);
     output_layer :=
       mkLinear (f (2 * n)%nat (weight (output_layer self)))
                (f (2 * n + 1)%nat (bias (output_layer self)));
     opt := opt self |}.

Definition set_training (b : bool) (self : MLP) : MLP :=
  {| training := b;
     input_size := input_size self;
     hidden_layers := hidden_layers self;
     output_layer := output_layer self;
     opt := opt self |}.

Definition set_opt (o : SGD) (self : MLP) : MLP :=
  {| training := training self;
     input_size := input_size self;
     hidden_layers := hidden_layers self;
     output_layer := output_layer self;
     opt := o |}.

(** [nn.Linear(n_in, n_out)] *)
Definition Linear_new (n_in n_out : Z) : M Linear :=
  fun w => let '((wt, b), g) := Linear_init n_in n_out (rng w) in
           (Ok (mkLinear (mkParam wt None) (mkParam b None)), set_rng g w).

(** [torch.optim.SGD(params, lr=lr)]: every other hyperparameter keeps
    its default, and no parameter has a momentum buffer yet. *)
Definition SGD_new (params : list Param) (lr : float) : SGD :=
  {| param_group := mkGroup lr fzero fzero fzero false;
     momentum_buffers := replicate (length params) None |}.

(** [MLP.__init__] *)
Definition MLP_init (input_size n_classes : Z) : M MLP :=
  h <- Linear_new input_size 256 ;;
  o <- Linear_new 256 n_classes ;;
  ret {| training := true;
         input_size := input_size;
         hidden_layers := [h];
         output_layer := o;
         opt := SGD_new (module_parameters [h] o) lr_1e_3 |}.

(** [layer(out)] for an [nn.Linear] *)
Definition Linear_call (layer : Linear) (x : Tensor) : option Tensor :=
  F_linear x (data (weight layer)) (data (bias layer)).

(** The loop over [self.hidden_layers] in [forward]. *)
Fixpoint forward_hidden (layers : list Linear) (out : Tensor) : option Tensor :=
  match layers with
  | [] => Some out
  | layer :: rest =>
      match Linear_call layer out with
      | Some Z => forward_hidden rest (F_relu Z)
      | None => None
      end
  end.

(** [MLP.forward]; [None] stands for the framework's shape-mismatch
    error. *)
Definition forward (self : MLP) (x : Tensor) : option Tensor :=
  match view_rows x (input_size self) with
  | Some x =>
      match forward_hidden (hidden_layers self) x with
      | Some out => Linear_call (output_layer self) out
      | None => None
      end
  | None => None
  end.

(** [self(images)] *)
Definition call_module (self : MLP) (images : Tensor) : M Tensor :=
  log_call OpForward ;;
  match forward self images with
  | Some logits => ret logits
  | None => raise RuntimeError
  end.

Definition log_softmax (x : Tensor) : M Tensor :=
  log_call OpLogSoftmax ;;
  ret (F_log_softmax x).

Definition nll_loss (probs : Tensor) (labels : Labels) (reduction : Reduction)
  : M Tensor :=
  log_call (OpNllLoss reduction) ;;
  match F_nll_loss reduction probs labels with
  | Some loss => ret loss
  | None => raise RuntimeError
  end.

(** The effect of [zero_grad] on the parameters. *)
Definition zero_grads (self : MLP) : MLP :=
  imap_params (fun _ p => mkParam (data p) None) self.

(** [self.opt.zero_grad()] *)
Definition zero_grad (self : MLP) : M MLP :=
  log_call OpZeroGrad ;;
  ret (zero_grads self).

(** How a new gradient lands in [p.grad]. *)
Definition accumulate (p : Param) (g : Tensor) : Param :=
  mkParam (data p)
          (Some (match grad p with
                 | Some g0 => tensor_add g0 g
                 | None => g
                 end)).

(** The effect of back-propagating [loss] on the parameters. *)
Definition backprop (loss : Tensor) (self : MLP) : MLP :=
  let gs := autograd_grad loss (data <$> parameters self) in
  imap_params (fun i p => match gs !! i with
                          | Some g => accumulate p g
                          | None => p
                          end) self.

(** [loss.backward()]: a loss computed while gradient tracking is off
    has no graph, and the framework refuses to differentiate it. *)
Definition backward (loss : Tensor) (self : MLP) : M MLP :=
  log_call OpBackward ;;
  enabled <- gets grad_enabled ;;
  if enabled : bool then ret (backprop loss self)
  else raise RuntimeError.

(** The effect of one optimizer update: parameters without a gradient
    are skipped. *)
Definition sgd_step (self : MLP) : MLP :=
  let group := param_group (opt self) in
  let bufs := momentum_buffers (opt self) in
  let upd i p :=
    match grad p with
    | Some g => sgd_update group (data p) g (mjoin (bufs !! i))
    | None => (data p, mjoin (bufs !! i))
    end in
  let bufs' := imap (fun i p => snd (upd i p)) (parameters self) in
  set_opt (mkSGD group bufs')
    (imap_params (fun i p => mkParam (fst (upd i p)) (grad p)) self).

(** [self.opt.step()] *)
Definition opt_step (self : MLP) : M MLP :=
  log_call OpStep ;;
  ret (sgd_step self).

(** [MLP.train_on_batch] *)
Definition train_on_batch (self : MLP) (batch : Batch) : M (float * MLP) :=
  let '(images, labels) := batch in
  self <- zero_grad self ;;
  logits <- call_module self images ;;
  probs <- log_softmax logits ;;
  loss <- nll_loss probs labels RedMean ;;
  self <- backward loss self ;;
  self <- opt_step self ;;
  ret (item loss, self).

(** [MLP.predict_on_batch] *)
Definition predict_on_batch (self : MLP) (batch : Batch) : M Labels :=
  let '(images, labels) := batch in
  logits <- call_module self images ;;
  probs <- log_softmax logits ;;
  log_call OpArgmax ;;
  ret (argmax probs).

(** [self.state_dict()] *)
Definition hidden_key (k : nat) (name : string) : list string :=
  ["hidden_layers"; pretty k; name].

Definition output_key (name : string) : list string :=
  ["output_layer"; name].

Fixpoint hidden_state_dict (k : nat) (layers : list Linear)
  : gmap (list string) Tensor :=
  match layers with
  | [] => ∅
  | l :: rest =>
      <[hidden_key k "weight" := data (weight l)]>
        (<[hidden_key k "bias" := data (bias l)]>
           (hidden_state_dict (S k) rest))
  end.

Definition state_dict (self : MLP) : gmap (list string) Tensor :=
  <[output_key "weight" := data (weight (output_layer self))]>
    (<[output_key "bias" := data (bias (output_layer self))]>
       (hidden_state_dict 0 (hidden_layers self))).

(** [MLP.get_state_dict] *)
Definition get_state_dict (self : MLP) : StateDict :=
  {| sd_model := state_dict self;
     sd_opt := opt self |}.

Definition rbind {A B} (r : Result A) (k : A -> Result B) : Result B :=
  match r with
  | Ok a => k a
  | Raise e => Raise e
  end.

(** Copying one entry of a loaded dictionary into a parameter: the key
    must be present and the shapes must agree. *)
Definition load_param (sd : gmap (list string) Tensor) (key : list string)
    (p : Param) : Result Param :=
  match sd !! key with
  | Some t =>
      if decide (shape t = shape (data p))
      then Ok (mkParam t (grad p))
      else Raise RuntimeError
  | None => Raise RuntimeError
  end.

Definition load_linear (sd : gmap (list string) Tensor)
    (key : string -> list string) (l : Linear) : Result Linear :=
  rbind (load_param sd (key "weight") (weight l)) (fun w =>
  rbind (load_param sd (key "bias") (bias l)) (fun b =>
  Ok (mkLinear w b))).

Fixpoint load_hidden (sd : gmap (list string) Tensor) (k : nat)
    (layers : list Linear) : Result (list Linear) :=
  match layers with
  | [] => Ok []
  | l :: rest =>
      rbind (load_linear sd (hidden_key k) l) (fun l' =>
      rbind (load_hidden sd (S k) rest) (fun rest' =>
      Ok (l' :: rest')))
  end.

(** [self.load_state_dict(sd)] in its default strict mode: unexpected or
    missing keys and mismatching shapes are errors. *)
Definition load_state_dict (self : MLP) (sd : gmap (list string) Tensor)
  : Result MLP :=
  if decide (dom sd = dom (state_dict self)) then
    rbind (load_hidden sd 0 (hidden_layers self)) (fun hl =>
    rbind (load_linear sd output_key (output_layer self)) (fun ol =>
    Ok {| training := training self;
          input_size := input_size self;
          hidden_layers := hl;
          output_layer := ol;
          opt := opt self |}))
  else Raise RuntimeError.

(** [self.opt.load_state_dict(sd)]: the saved group must have as many
    parameters as the optimizer's. *)
Definition opt_load_state_dict (self : MLP) (sd : SGD) : Result MLP :=
  if decide (length (momentum_buffers sd) = length (parameters self))
  then Ok (set_opt sd self)
  else Raise ValueError.

(** [MLP.set_state_dict] *)
Definition set_state_dict (self : MLP) (state_dict : StateDict) : Result MLP :=
  rbind (load_state_dict self (sd_model state_dict)) (fun self =>
  opt_load_state_dict self (sd_opt state_dict)).

(** [{"train_loss": loss}] and [{"val_acc": acc}] *)
Record TrainDict : Type := mkTrainDict { td_train_loss : float }.
Record ValDict : Type := mkValDict { vd_val_acc : float }.

(** The [for i, batch in enumerate(train_loader)] loop of
    [train_on_loader]. *)
Fixpoint train_loop (self : MLP) (n_batches : Z) (loss_sum : float) (i : Z)
    (batches : list Batch) : M (float * MLP) :=
  match batches with
  | [] => ret (loss_sum, self)
  | batch :: rest =>
      '(loss, self) <- train_on_batch self batch ;;
      let loss_sum := fadd loss_sum loss in
      r <- py_mod i (n_batches / 10) ;;
      (if r =? 0
       then x <- py_truediv loss_sum (i + 1) ;; print (PTrainLoss i x)
       else ret tt) ;;
      train_loop self n_batches loss_sum (i + 1) rest
  end.

(** [MLP.train_on_loader] *)
Definition train_on_loader (self : MLP) (train_loader : option DataLoader)
  : M (TrainDict * MLP) :=
  let self := set_training true self in
  let loss_sum := fzero in
  n_batches <- py_len train_loader ;;
  batches <- py_iter train_loader ;;
  '(loss_sum, self) <- train_loop self n_batches loss_sum 0 batches ;;
  loss <- py_truediv loss_sum n_batches ;;
  ret (mkTrainDict loss, self).

(** [(pred_labels.cpu() == gt_labels).sum()]: element-wise comparison of
    two one-dimensional tensors, a tensor of one element being broadcast
    against the other. *)
Definition count_eq (a b : Labels) : Z :=
  Z.of_nat (length (filter (fun xy => xy.1 = xy.2) (zip a b))).

Definition matches (pred gt : Labels) : option Z :=
  if decide (length pred = length gt) then Some (count_eq pred gt)
  else match pred, gt with
       | [x], _ => Some (count_eq (replicate (length gt) x) gt)
       | _, [y] => Some (count_eq pred (replicate (length pred) y))
       | _, _ => None
       end.

Definition eq_sum (pred gt : Labels) : M Z :=
  match matches pred gt with
  | Some c => ret c
  | None => raise RuntimeError
  end.

(** [@torch.no_grad()]: gradient tracking is switched off for the call
    and the previous mode is put back on the way out, also when the call
    raises. *)
Definition no_grad {A} (m : M A) : M A :=
  fun w => let prev := grad_enabled w in
           let '(r, w') := m (set_grad_enabled false w) in
           (r, set_grad_enabled prev w').

(** The [for i, batch in enumerate(val_loader)] loop of [val_on_loader]. *)
Fixpoint val_loop (self : MLP) (n_batches : Z) (se : float) (n_samples : Z)
    (i : Z) (batches : list Batch) : M (float * Z) :=
  match batches with
  | [] => ret (se, n_samples)
  | batch :: rest =>
      let gt_labels := batch.2 in
      pred_labels <- predict_on_batch self batch ;;
      c <- eq_sum pred_labels gt_labels ;;
      let se := fadd se (float_of_int c) in
      let n_samples := n_samples + Z.of_nat (length gt_labels) in
      r <- py_mod i (n_batches / 10) ;;
      (if r =? 0
       then x <- py_truediv se n_samples ;; print (PValScore i x)
       else ret tt) ;;
      val_loop self n_batches se n_samples (i + 1) rest
  end.

(** [MLP.val_on_loader] *)
Definition val_on_loader (self : MLP) (val_loader : option DataLoader)
  : M (ValDict * MLP) :=
  no_grad (
    let self := set_training false self in
    let se := fzero in
    let n_samples := 0 in
    n_batches <- py_len val_loader ;;
    batches <- py_iter val_loader ;;
    '(se, n_samples) <- val_loop self n_batches se n_samples 0 batches ;;
    acc <- py_truediv se n_samples ;;
    ret (mkValDict acc, self)).

(** ** Datasets and models by name *)

(** [DataLoader(dataset, shuffle=True, batch_size=batch_size)]: the
    framework rejects a batch size that is not a positive integer. *)
Definition new_DataLoader (dataset : Dataset) (shuffle : bool)
    (batch_size : Value) : M DataLoader :=
  match batch_size with
  | VInt b => if 0 <? b then ret (DataLoader_new dataset shuffle b)
              else raise ValueError
  | _ => raise ValueError
  end.

(** [torchvision.datasets.MNIST(datadir, train=train, download=True,
    transform=transform)]: the constructor works on the dataset files
    under [datadir], which it may have to fetch first. *)
Definition new_MNIST (datadir : Path) (train : bool) : M Dataset :=
  fun w => let '(r, s) := MNIST datadir train (store w) in (r, set_store s w).

(** [get_loader]: a function that falls off its end returns [None]. *)
Definition get_loader (dataset_name : Value) (datadir : Path) (split : string)
    (batch_size : Value) : M (option DataLoader) :=
  if py_eq_str dataset_name "mnist" then
    let train := if bool_decide (split = "train") then true else false in
    dataset <- new_MNIST datadir train ;;
    loader <- new_DataLoader dataset true batch_size ;;
    ret (Some loader)
  else ret None.

(** [get_model] *)
Definition get_model (model_name : Value) : M (option MLP) :=
  if py_eq_str model_name "mlp" then
    m <- MLP_init 784 10 ;;
    ret (Some m)
  else ret None.

(** ** The loop *)

(** [pd.DataFrame(score_list).tail()]: the last five rows. *)
Definition tail5 (l : list ScoreDict) : list ScoreDict :=
  drop (length l - 5)%nat l.

(** The [for e in range(s_epoch, exp_dict['max_epoch'])] loop of
    [trainval]. *)
Fixpoint epoch_loop (savedir model_path score_list_path : Path)
    (train_loader val_loader : option DataLoader)
    (model : option MLP) (score_list : list ScoreDict) (es : list Z) : M unit :=
  match es with
  | [] => ret tt
  | e :: rest =>
      m <- attr model ;;
      '(train_dict, m) <- train_on_loader m train_loader ;;
      '(val_dict, m) <- val_on_loader m val_loader ;;
      let score_dict :=
        {| train_loss := td_train_loss train_dict;
           val_acc := vd_val_acc val_dict;
           epoch := e |} in
      let score_list := score_list ++ [score_dict] in
      print (PScoreTail (tail5 score_list)) ;;
      torch_save model_path (get_state_dict m) ;;
      save_pkl score_list_path score_list ;;
      print (PCheckpoint savedir) ;;
      epoch_loop savedir model_path score_list_path train_loader val_loader
                 (Some m) score_list rest
  end.

(** The checkpoint branch of [trainval]: resume from the files, or start
    at epoch 0 with an empty history. *)
Definition checkpoint (model_path score_list_path : Path) (model : option MLP)
  : M (option MLP * list ScoreDict * Z) :=
  found <- path_exists score_list_path ;;
  if found : bool then
    m <- attr model ;;
    state <- torch_load model_path ;;
    m <- lift (set_state_dict m state) ;;
    score_list <- load_pkl score_list_path ;;
    r <- py_last score_list ;;
    let s_epoch := epoch r + 1 in
    ret (Some m, score_list, s_epoch)
  else
    ret (model, [], 0).

(** The names bound at module level in [example.py]: its imports, its
    definitions, [EXP_GROUPS], and what the script assigns under
    [if __name__ == '__main__'].  Neither [datasets] nor [models] is among
    them (the only other [datasets] of the file is the attribute of
    [torchvision] in [get_loader]), and neither is a builtin. *)
Definition module_globals : list string :=
  ["os"; "argparse"; "torchvision"; "pd"; "pprint"; "torch"; "nn";
   "DataLoader"; "F"; "hu"; "hr"; "hc"; "hj"; "trainval"; "EXP_GROUPS";
   "get_loader"; "get_model"; "MLP"; "parser"; "args"; "savedir";
   "exp_dict"; "exp_list"; "exp_group_name"].

(** Evaluating a global name: [NameError] when the module does not bind
    it. *)
Definition load_global (name : string) : M unit :=
  if bool_decide (name ∈ module_globals) then ret tt else raise NameError.

(** [trainval].  The source spells the two factory calls
    [datasets.get_loader(..)] and [models.get_model(..)].  A call
    evaluates its callee before its arguments, so each of them starts by
    looking up the global [datasets], respectively [models], before any
    key of [exp_dict] is read.  The lookups fail, so what follows them is
    never run; it is written with the [get_loader] and [get_model] of the
    file, the only functions of these names. *)
Definition trainval (exp_dict : ExpDict) (savedir_base : Path) (reset : bool)
  : M unit :=
  let exp_id := hash_dict exp_dict in
  let savedir := path_join savedir_base exp_id in
  (if reset then delete_experiment savedir true else ret tt) ;;
  makedirs savedir ;;
  save_json (path_join savedir "exp_dict.json") exp_dict ;;
  print (PExpDict exp_dict) ;;
  print (PSavedIn savedir) ;;
  load_global "datasets" ;;
  dataset_name <- getitem exp_dict "dataset" ;;
  batch_size <- getitem exp_dict "batch_size" ;;
  train_loader <- get_loader dataset_name savedir_base "train" batch_size ;;
  load_global "datasets" ;;
  dataset_name <- getitem exp_dict "dataset" ;;
  batch_size <- getitem exp_dict "batch_size" ;;
  val_loader <- get_loader dataset_name savedir_base "val" batch_size ;;
  load_global "models" ;;
  model_name <- getitem exp_dict "model" ;;
  model <- get_model model_name ;;
  let model_path := path_join savedir "model.pth" in
  let score_list_path := path_join savedir "score_list.pkl" in
  '(model, score_list, s_epoch) <- checkpoint model_path score_list_path model ;;
  print (PStart s_epoch) ;;
  max_epoch <- getitem exp_dict "max_epoch" ;;
  es <- py_range s_epoch max_epoch ;;
  epoch_loop savedir model_path score_list_path train_loader val_loader
             model score_list es ;;
  print PCompleted.

(** ** What one step computes *)

(** The loss and the updated model of a training step on a well-shaped
    batch, without the bookkeeping of the interpreter. *)
Definition train_step (self : MLP) (batch : Batch) : option (float * MLP) :=
  let self0 := zero_grads self in
  match forward self0 batch.1 with
  | Some logits =>
      match F_nll_loss RedMean (F_log_softmax logits) batch.2 with
      | Some loss => Some (item loss, sgd_step (backprop loss self0))
      | None => None
      end
  | None => None
  end.

(** The framework calls of one training step, in order. *)
Definition train_ops : list Op :=
  [OpZeroGrad; OpForward; OpLogSoftmax; OpNllLoss RedMean; OpBackward; OpStep].

(** Training steps over a sequence of batches, each starting from the
    model the previous one left: the per-batch losses and the final
    model. *)
Fixpoint train_steps (self : MLP) (batches : list Batch)
  : option (list float * MLP) :=
  match batches with
  | [] => Some ([], self)
  | batch :: rest =>
      match train_step self batch with
      | Some (loss, self') =>
          match train_steps self' rest with
          | Some (losses, self'') => Some (loss :: losses, self'')
          | None => None
          end
      | None => None
      end
  end.

(** The labels [predict_on_batch] returns on a well-shaped batch. *)
Definition predict (self : MLP) (batch : Batch) : option Labels :=
  match forward self batch.1 with
  | Some logits => Some (argmax (F_log_softmax logits))
  | None => None
  end.

(** The framework calls of one prediction, in order. *)
Definition predict_ops : list Op := [OpForward; OpLogSoftmax; OpArgmax].

(** The number of predictions of a batch that match its ground truth. *)
Definition batch_correct (self : MLP) (batch : Batch) : option Z :=
  match predict self batch with
  | Some pred => matches pred batch.2
  | None => None
  end.

(** The calls [ops], all run under gradient mode [g]. *)
Definition calls_of (g : bool) (ops : list Op) : list Call :=
  (fun o => mkCall o g) <$> ops.

(** Sum of floats, left to right from [0.], as a Python accumulation
    loop computes it. *)
Definition fsum (xs : list float) : float := fold_left fadd xs fzero.

(** The mean of a sequence of losses. *)
Definition mean (xs : list float) : float :=
  fdiv (fsum xs) (float_of_int (Z.of_nat (length xs))).

(** Correct predictions over total samples. *)
Definition accuracy (correct total : Z) : float :=
  fdiv (float_of_int correct) (float_of_int total).

(** Indices of a pass of [n] batches at which a progress line is due. *)
Definition progress_indices (n : Z) : list Z :=
  filter (fun i => i mod (n / 10) = 0) (seqZ 0 n).

(** The persisted score history of a checkpoint directory, if any. *)
Definition history (w : World) (savedir : Path) : option (list ScoreDict) :=
  match fs w !! path_join savedir "score_list.pkl" with
  | Some (FPkl l) => Some l
  | _ => None
  end.

(** Lines that only an epoch prints. *)
Definition epoch_line (l : Line) : bool :=
  match l with
  | PTrainLoss _ _ | PValScore _ _ | PScoreTail _ | PCheckpoint _ => true
  | _ => false
  end.

(** The world [trainval] works in once the [reset] flag has been
    honoured. *)
Definition after_reset (reset : bool) (savedir : Path) (w : World) : World :=
  if reset then (delete_experiment savedir true w).2 else w.

(** The world after the bookkeeping prologue of [trainval]: the
    configuration saved in its directory and two lines printed. *)
Definition prologue_world (exp_dict : ExpDict) (savedir : Path) (w : World)
  : World :=
  add_stdout (PSavedIn savedir)
    (add_stdout (PExpDict exp_dict)
       (set_fs (insert (path_join savedir "exp_dict.json") (FJson exp_dict)) w)).

(** The world after the framework calls [ops] have been logged. *)
Definition log_calls (ops : list Op) (w : World) : World :=
  fold_left (fun w o => add_call o w) ops w.

(** The mean of the first [i + 1] losses: what the progress line of batch
    [i] shows. *)
Definition running_mean (losses : list float) (i : Z) : float :=
  mean (take (Z.to_nat (i + 1)) losses).

(** Sum of a list of integers. *)
Definition zsum (l : list Z) : Z := foldr Z.add 0 l.

(** The score after batch [i]: matches so far over samples so far. *)
Definition running_score (counts sizes : list Z) (i : Z) : float :=
  fdiv (fsum (float_of_int <$> take (Z.to_nat (i + 1)) counts))
       (float_of_int (zsum (take (Z.to_nat (i + 1)) sizes))).

(** The number of samples of a batch, [gt_labels.shape[0]]. *)
Definition batch_size_of (batch : Batch) : Z := Z.of_nat (length batch.2).

(** ** Specifications of runs *)

(** [wp m w Q E]: run from [w], [m] either returns a value and a world in
    [Q] or raises an exception and leaves a world in [E]. *)
Definition wp {A} (m : M A) (w : World) (Q : A -> World -> Prop)
    (E : exn -> World -> Prop) : Prop :=
  match m w with
  | (Ok a, w') => Q a w'
  | (Raise e, w') => E e w'
  end.

(** A computation that reads the world without changing it. *)
Definition reads {A} (m : M A) : Prop := forall w, (m w).2 = w.

(** A computation all of whose runs relate the final world to the
    initial one by [R]. *)
Definition keeps {A} (R : relation World) (m : M A) : Prop :=
  forall w, R w (m w).2.

(** Nothing but the random generator has changed. *)
Definition same_but_rng : relation World :=
  fun w w' => fs w' = fs w /\ backup w' = backup w /\ store w' = store w /\
              grad_enabled w' = grad_enabled w /\
              stdout w' = stdout w /\ calls w' = calls w.

(** The tensors of a layer, which is all [forward] reads of it. *)
Definition layer_data (l : Linear) : Tensor * Tensor :=
  (data (weight l), data (bias l)).

(** [b] is an instance of the architecture of [a]: the same input size,
    the same parameter names, tensors of the same shapes under each
    name. *)
Definition same_architecture (a b : MLP) : Prop :=
  input_size a = input_size b /\
  dom (state_dict a) = dom (state_dict b) /\
  forall k ta tb,
    state_dict a !! k = Some ta -> state_dict b !! k = Some tb ->
    shape ta = shape tb.

(** The optimizer tracks one momentum buffer per parameter. *)
Definition optimizer_wf (self : MLP) : Prop :=
  length (momentum_buffers (opt self)) = length (parameters self).

(** ** Two runs side by side *)

(** [m1] and [m2], started in worlds related by [R], give the same
    result and end in worlds related by [R]. *)
Definition rel {A} (R : World -> World -> Prop) (m1 m2 : M A) : Prop :=
  forall w1 w2, R w1 w2 ->
    (m1 w1).1 = (m2 w2).1 /\ R (m1 w1).2 (m2 w2).2.

(** Two worlds agree on what the framework sees: the generator, the
    gradient mode and the calls made so far. *)
Definition same_machine (w1 w2 : World) : Prop :=
  rng w1 = rng w2 /\ grad_enabled w1 = grad_enabled w2 /\ calls w1 = calls w2.

(** Two worlds agree on the framework state and on the checkpoint files
    of the directories [d1] and [d2]. *)
Definition same_checkpoint (d1 d2 : Path) (w1 w2 : World) : Prop :=
  same_machine w1 w2 /\
  fs w1 !! path_join d1 "model.pth" = fs w2 !! path_join d2 "model.pth" /\
  fs w1 !! path_join d1 "score_list.pkl" = fs w2 !! path_join d2 "score_list.pkl".

(** Two configurations that agree on every key but [k]. *)
Definition differ_only_in (k : string) (e1 e2 : ExpDict) : Prop :=
  forall k', k' <> k -> e1 !! k' = e2 !! k'.

(** The defaults of [torch.optim.SGD] with the learning rate the
    constructor of [MLP] passes. *)
Definition sgd_1e_3 : ParamGroup := mkGroup lr_1e_3 fzero fzero fzero false.

(** ** Frames of a run *)

(** The file table has changed at most at the paths in [P]; the backup
    and the dataset files have not changed at all. *)
Definition same_files_but (P : Path -> Prop) : relation World :=
  fun w w' => (forall p, ~ P p -> fs w' !! p = fs w !! p) /\
              backup w' = backup w /\ store w' = store w.

(** ** Calls of a prediction *)

(** A framework call that a prediction makes, made with gradient
    tracking off. *)
Definition inference_call (c : Call) : Prop :=
  call_grad c = false /\ call_op c ∈ predict_ops.

(** What code that only predicts does to the world while gradient
    tracking is off: the mode and the files stay, and the calls it adds
    are inference calls. *)
Definition only_predicts : relation World :=
  fun w w' =>
    grad_enabled w' = grad_enabled w /\ fs w' = fs w /\
    (grad_enabled w = false ->
     exists new, calls w' = calls w ++ new /\ Forall inference_call new).

(** ** The gradients of one batch *)

(** The gradients of the loss of [batch] with respect to the parameters
    of [self], in [parameters()] order, as [loss.backward()] computes
    them in [train_on_batch]. *)
Definition batch_gradients (self : MLP) (batch : Batch) : option (list Tensor) :=
  match forward (zero_grads self) batch.1 with
  | Some logits =>
      match F_nll_loss RedMean (F_log_softmax logits) batch.2 with
      | Some loss =>
          Some (autograd_grad loss (data <$> parameters (zero_grads self)))
      | None => None
      end
  | None => None
  end.

(** ** The script *)

(** The last branch of the script:
    [for exp_dict in exp_list: trainval(exp_dict=exp_dict,
    savedir_base=args.savedir_base, reset=args.reset)].  [args.reset] is
    an integer ([type=int], default 0), which [trainval] tests for
    truth. *)
Fixpoint run_exp_list (exp_list : list ExpDict) (savedir_base : Path)
    (reset : Z) : M unit :=
  match exp_list with
  | [] => ret tt
  | exp_dict :: rest =>
      trainval exp_dict savedir_base (negb (reset =? 0)) ;;
      run_exp_list rest savedir_base reset
  end.

End Program.

(** * A small executable framework

    An instance of the framework interface on which the program can be
    run inside Rocq: tensors are lists of integers, a dataset is a list
    of (pixel, label) pairs, a loader holds its batches, and the generator
    counts the draws made from it. *)

Module Mini.

Definition tensor : Type := list Z.

Definition dataset : Type := list (Z * Z).

Definition loader : Type := list (tensor * Labels).

(** Twenty samples per split; the label of a sample is its pixel modulo
    ten. *)
Definition mnist (root : Path) (train : bool) : dataset :=
  (fun i => (i, i mod 10)) <$> seqZ (if train then 0 else 100) 20.

(** Consecutive batches of [n] samples; the last one may be shorter. *)
Fixpoint chunks (fuel n : nat) (l : dataset) : list dataset :=
  match fuel, l with
  | S fuel', _ :: _ => take n l :: chunks fuel' n (drop n l)
  | _, _ => []
  end.

Definition collate (samples : dataset) : tensor * Labels :=
  (samples.*1, samples.*2).

Definition new_loader (ds : dataset) (shuffle : bool) (batch_size : Z) : loader :=
  collate <$> chunks (length ds) (Z.to_nat batch_size) ds.

Definition linear (x w b : tensor) : option tensor :=
  match w, b with
  | [a], [c] => Some ((fun v => v * a + c) <$> x)
  | _, _ => None
  end.

Definition nll (r : Reduction) (probs : tensor) (labels : Labels) : option tensor :=
  if decide (length probs = length labels)
  then Some [Z.of_nat (length (filter (fun xy => xy.1 mod 10 <> xy.2) (zip probs labels)))]
  else None.

#[export] Instance torch : Torch := {|
  Tensor := tensor;
  Generator := nat;
  Dataset := dataset;
  DataLoader := loader;
  Store := bool;
  MNIST := fun root train fetched => (Ok (mnist root train), true);
  DataLoader_new := new_loader;
  loader_len := fun l => Z.of_nat (length l);
  loader_iter := fun l g => (l, S g);
  loader_iter_len := fun l g => eq_refl;
  Linear_init := fun n_in n_out g => (([1], [Z.of_nat (g / 4)]), S g);
  shape := fun t => [Z.of_nat (length t)];
  view_rows := fun x n => Some x;
  F_linear := linear;
  F_relu := fmap (Z.max 0);
  F_log_softmax := fun x => x;
  F_nll_loss := nll;
  argmax := fmap (fun v => v mod 10);
  item := fun t => float_of_int (default 0 (head t));
  autograd_grad := fun loss leaves => (fun _ => [0]) <$> leaves;
  tensor_add := fun x y => zip_with Z.add x y;
  sgd_update := fun g d gr buf => (d, buf)
|}.

(** A fingerprint of a configuration: the sum of a digest of its values. *)
Definition digest (v : Value) : N :=
  match v with
  | VStr s => N.of_nat (String.length s)
  | VInt z => Z.to_N (Z.abs z)
  | VFloat (S754_finite _ m _) => Npos m
  | VFloat _ => 0%N
  end.

#[export] Instance haven : Haven := {|
  hash_dict := fun e => pretty (map_fold (fun _ v acc => (digest v + acc)%N) 0%N e)
|}.

(** The configuration of the examples, with [max_epoch] and
    [batch_size] left open. *)
Definition config (max_epoch batch_size : Z) : ExpDict :=
  <["dataset" := VStr "mnist"]>
    (<["model" := VStr "mlp"]>
       (<["max_epoch" := VInt max_epoch]>
          (<["lr" := VFloat lr_1e_3]>
             (<["batch_size" := VInt batch_size]> ∅)))).

(** An empty machine: no file, nothing printed, no call made, gradient
    tracking on. *)
Definition world0 : World :=
  {| fs := ∅; backup := ∅; store := false; rng := 0%nat;
     grad_enabled := true; stdout := []; calls := [] |}.

Definition base : Path := ["results"].

(** The checkpoint directory of [config 1 2] under [base]. *)
Definition savedir : Path := path_join base (hash_dict (config 1 2)).

(** The score record of an epoch without loss in which every prediction
    was right. *)
Definition score1 : ScoreDict :=
  {| train_loss := fzero; val_acc := float_of_int 1; epoch := 0 |}.

(** A model whose layers are given by hand: [a], [c] are the weight and
    the bias of the hidden layer. *)
Definition model (a c : Z) : MLP :=
  let h := mkLinear (mkParam [a] None) (mkParam [c] None) in
  let o := mkLinear (mkParam [1] None) (mkParam [0] None) in
  {| training := true;
     input_size := 784;
     hidden_layers := [h];
     output_layer := o;
     opt := SGD_new (module_parameters [h] o) lr_1e_3 |}.

(** The validation loader in batches of two (ten batches) and of four
    (five batches). *)
Definition loader10 : loader := new_loader (mnist base false) true 2.

Definition loader5 : loader := new_loader (mnist base false) true 4.

(** A loader over a dataset without samples: no batch. *)
Definition empty_loader : loader := new_loader [] true 2.

(** Machine [w] with a checkpoint put by hand in directory [d]: the
    configuration [e], the state of [model 1 0] and a history of one
    record, of epoch 0. *)
Definition with_checkpoint (d : Path) (e : ExpDict) (w : World) : World :=
  set_fs (fun files =>
            <[path_join d "score_list.pkl" := FPkl [score1]]>
              (<[path_join d "model.pth" := FPth (get_state_dict (model 1 0))]>
                 (<[path_join d "exp_dict.json" := FJson e]> files))) w.

(** The directory of [config 1 2] holding such a checkpoint: for this
    configuration, whose [max_epoch] is 1, nothing is left to do. *)
Definition world_done : World := with_checkpoint savedir (config 1 2) world0.

(** The checkpoint directory of [config 2 2] under [base], and a machine
    where it holds such a checkpoint: for this configuration, whose
    [max_epoch] is 2, epoch 1 is left to do. *)
Definition savedir2 : Path := path_join base (hash_dict (config 2 2)).

Definition world_half : World := with_checkpoint savedir2 (config 2 2) world0.

End Mini.

(** * Integers as binary64 numbers

    Additions of integer-valued floats are exact as long as the sum stays
    below [2 ^ 53]; this is what makes the float accumulator of the
    validation pass a counter. *)

Lemma iter_xO_val p q : Zpos (Pos.iter xO p q) = Zpos p * 2 ^ Zpos q.
Proof.
  induction q as [|q IH] using Pos.peano_ind.
  - simpl. lia.
  - rewrite Pos.iter_succ, Pos2Z.inj_succ, Z.pow_succ_r by lia.
    rewrite Pos2Z.inj_xO, IH. lia.
Qed.

Lemma iter_xO_digits p q :
  digits2_pos (Pos.iter xO p q) = (digits2_pos p + q)%positive.
Proof.
  induction q as [|q IH] using Pos.peano_ind.
  - simpl. lia.
  - rewrite Pos.iter_succ. simpl. rewrite IH. lia.
Qed.

Lemma pshift_val p k : 0 <= k -> Zpos (pshift p k) = Zpos p * 2 ^ k.
Proof.
  intros Hk. destruct k as [|q|q]; simpl; [lia| |lia].
  apply iter_xO_val.
Qed.

Lemma pshift_digits p k :
  0 <= k -> Zpos (digits2_pos (pshift p k)) = Zpos (digits2_pos p) + k.
Proof.
  intros Hk. destruct k as [|q|q]; simpl; [lia| |lia].
  rewrite iter_xO_digits. lia.
Qed.

Lemma digits2_pos_bounds p :
  2 ^ (Zpos (digits2_pos p) - 1) <= Zpos p < 2 ^ Zpos (digits2_pos p).
Proof.
  induction p as [p IH|p IH|]; simpl digits2_pos.
  - rewrite Pos2Z.inj_succ, Z.pow_succ_r by lia.
    replace (Z.succ (Zpos (digits2_pos p)) - 1) with (Z.succ (Zpos (digits2_pos p) - 1)) by lia.
    rewrite Z.pow_succ_r by lia. lia.
  - rewrite Pos2Z.inj_succ, Z.pow_succ_r by lia.
    replace (Z.succ (Zpos (digits2_pos p)) - 1) with (Z.succ (Zpos (digits2_pos p) - 1)) by lia.
    rewrite Z.pow_succ_r by lia. lia.
  - simpl. lia.
Qed.

Lemma digits2_pos_le p d : Zpos p < 2 ^ d -> 0 <= d -> Zpos (digits2_pos p) <= d.
Proof.
  intros Hp Hd. pose proof (digits2_pos_bounds p) as [Hlo _].
  destruct (decide (Zpos (digits2_pos p) <= d)) as [|Hgt]; [done|].
  assert (2 ^ d <= 2 ^ (Zpos (digits2_pos p) - 1)) by (apply Z.pow_le_mono_r; lia).
  lia.
Qed.

Lemma digits2_pos_mono p q :
  (p <= q)%positive -> Zpos (digits2_pos p) <= Zpos (digits2_pos q).
Proof.
  intros Hpq. apply digits2_pos_le; [|lia].
  pose proof (digits2_pos_bounds q). lia.
Qed.

Lemma iter_pos_iter {A} (f : A -> A) p x :
  SpecFloat.iter_pos f p x = Pos.iter f x p.
Proof.
  revert x. induction p as [p IH|p IH|]; intros x; simpl; [| |done].
  - rewrite !IH. by rewrite <-!Pos.iter_swap.
  - by rewrite !IH.
Qed.

Lemma shr_exact m q :
  SpecFloat.iter_pos shr_1 q (Build_shr_record (Zpos (Pos.iter xO m q)) false false)
  = Build_shr_record (Zpos m) false false.
Proof.
  rewrite iter_pos_iter.
  induction q as [|q IH] using Pos.peano_ind; [done|].
  rewrite !Pos.iter_succ. rewrite <-Pos.iter_swap. simpl. exact IH.
Qed.

(** A mantissa of 53 bits with an exponent in range is already in normal
    form. *)
Lemma binary_round_aux_canonical m e :
  Zpos (digits2_pos m) = 53 -> -1074 <= e <= 971 ->
  binary_round_aux 53 1024 false (Zpos m) e loc_Exact = S754_finite false m e.
Proof.
  intros Hd He. unfold binary_round_aux, shr_fexp, Zdigits2. rewrite Hd.
  unfold fexp, emin.
  replace (Z.max (53 + e - 53) (3 - 1024 - 53) - e) with 0 by lia.
  cbn [shr shr_record_of_loc shr_m loc_of_shr_record round_nearest_even].
  rewrite Hd.
  replace (Z.max (53 + e - 53) (3 - 1024 - 53) - e) with 0 by lia.
  cbn [shr shr_record_of_loc shr_m].
  replace (e <=? 1024 - 53) with true by lia. done.
Qed.

(** Rounding [p * 2 ^ k * 2 ^ (- k)] when [p] has at most 53 bits and the
    scaled mantissa has at least 53: the result is the normal form of
    [p]. *)
Lemma binary_round_scaled p k :
  let d := Zpos (digits2_pos p) in
  d <= 53 -> 53 - d <= k <= 53 ->
  binary_round 53 1024 false (pshift p k) (- k)
  = S754_finite false (pshift p (53 - d)) (d - 53).
Proof.
  intros d Hd Hk. unfold binary_round.
  pose proof (Pos2Z.is_pos (digits2_pos p)) as Hd0. fold d in Hd0.
  rewrite pshift_digits by lia. fold d.
  replace (fexp 53 1024 (d + k + - k)) with (d - 53) by (unfold fexp, emin; lia).
  unfold shl_align.
  destruct (d - 53 - - k) as [|q|q] eqn:Hn; [| |lia].
  - (* the scaled mantissa has exactly 53 bits *)
    replace k with (53 - d) by lia. replace (- (53 - d)) with (d - 53) by lia.
    apply binary_round_aux_canonical; [|lia].
    rewrite pshift_digits by lia. fold d. lia.
  - unfold binary_round_aux, shr_fexp, Zdigits2.
    rewrite pshift_digits by lia. fold d.
    replace (fexp 53 1024 (d + k + - k) - - k) with (Zpos q) by (unfold fexp, emin; lia).
    cbn [shr shr_record_of_loc].
    assert (Hm : pshift p k = Pos.iter xO (pshift p (53 - d)) q).
    { apply Pos2Z.inj. rewrite iter_xO_val, !pshift_val by lia.
      rewrite <-Z.mul_assoc, <-Z.pow_add_r by lia. do 2 f_equal. lia. }
    rewrite Hm, shr_exact.
    cbn [shr_m loc_of_shr_record round_nearest_even Zdigits2].
    rewrite pshift_digits by lia. fold d.
    replace (fexp 53 1024 (d + (53 - d) + (- k + Zpos q)) - (- k + Zpos q)) with 0
      by (unfold fexp, emin; lia).
    cbn [shr shr_record_of_loc shr_m].
    replace (- k + Zpos q <=? 1024 - 53) with true by lia.
    f_equal. lia.
Qed.

(** The binary64 number of a positive integer below [2 ^ 53]: the integer
    itself, shifted to a mantissa of 53 bits. *)
Lemma float_of_int_pos p :
  let d := Zpos (digits2_pos p) in
  d <= 53 ->
  float_of_int (Zpos p) = S754_finite false (pshift p (53 - d)) (d - 53).
Proof.
  intros d Hd. unfold float_of_int, binary_normalize, binary_round.
  pose proof (Pos2Z.is_pos (digits2_pos p)) as Hd0. fold d in Hd0.
  replace (fexp 53 1024 (Zpos (digits2_pos p) + 0)) with (d - 53)
    by (unfold fexp, emin; fold d; lia).
  unfold shl_align.
  destruct (d - 53 - 0) as [|q|q] eqn:Hn; [|lia|].
  - replace (53 - d) with 0 by lia. simpl pshift.
    replace (d - 53) with 0 by lia.
    apply binary_round_aux_canonical; [fold d|]; lia.
  - replace (Pos.iter xO p q) with (pshift p (53 - d)).
    2:{ replace (53 - d) with (Zpos q) by lia. done. }
    apply binary_round_aux_canonical; [|lia].
    rewrite pshift_digits by lia. fold d. lia.
Qed.

Lemma shl_align_fst m e e' :
  e' <= e -> (shl_align m e e').1 = pshift m (e - e').
Proof.
  intros He. unfold shl_align.
  destruct (e' - e) as [|q|q] eqn:Hd; simpl; [|lia|].
  - by replace (e - e') with 0 by lia.
  - by replace (e - e') with (Zpos q) by lia.
Qed.

Lemma pshift_pshift p a b :
  0 <= a -> 0 <= b -> pshift (pshift p a) b = pshift p (a + b).
Proof.
  intros Ha Hb. apply Pos2Z.inj. rewrite !pshift_val by lia.
  rewrite Z.pow_add_r by lia. lia.
Qed.

Lemma pshift_add p q k :
  0 <= k -> Zpos (pshift p k) + Zpos (pshift q k) = Zpos (pshift (p + q) k).
Proof. intros Hk. rewrite !pshift_val by lia. lia. Qed.

(** Adding the floats of two positive integers whose sum is below
    [2 ^ 53] is exact. *)
Lemma fadd_float_of_int_pos p q :
  Zpos (p + q) < 2 ^ 53 ->
  fadd (float_of_int (Zpos p)) (float_of_int (Zpos q))
  = float_of_int (Zpos (p + q)).
Proof.
  intros Hsum.
  set (dp := Zpos (digits2_pos p)). set (dq := Zpos (digits2_pos q)).
  set (ds := Zpos (digits2_pos (p + q))).
  assert (Hds : ds <= 53) by (by apply digits2_pos_le).
  assert (Hdp : dp <= ds) by (apply digits2_pos_mono; lia).
  assert (Hdq : dq <= ds) by (apply digits2_pos_mono; lia).
  assert (Hdp0 : 0 < dp) by apply Pos2Z.is_pos.
  assert (Hdq0 : 0 < dq) by apply Pos2Z.is_pos.
  rewrite !float_of_int_pos by (fold dp dq ds; lia). fold dp dq ds.
  unfold fadd, SFadd. cbn [cond_Zopp].
  set (ez := Z.min (dp - 53) (dq - 53)).
  rewrite !shl_align_fst by lia.
  rewrite !pshift_pshift by lia.
  replace (53 - dp + (dp - 53 - ez)) with (- ez) by lia.
  replace (53 - dq + (dq - 53 - ez)) with (- ez) by lia.
  rewrite pshift_add by lia. unfold binary_normalize.
  replace ez with (- - ez) at 2 by lia.
  rewrite binary_round_scaled; fold ds; [done|lia|lia].
Qed.

Lemma float_of_int_finite p :
  Zpos p < 2 ^ 53 -> exists m e, float_of_int (Zpos p) = S754_finite false m e.
Proof.
  intros Hp. rewrite float_of_int_pos by (by apply digits2_pos_le). eauto.
Qed.

(** Adding the floats of two non-negative integers whose sum is below
    [2 ^ 53] is exact. *)
Lemma fadd_float_of_int a b :
  0 <= a -> 0 <= b -> a + b < 2 ^ 53 ->
  fadd (float_of_int a) (float_of_int b) = float_of_int (a + b).
Proof.
  intros Ha Hb Hab. destruct a as [|p|p], b as [|q|q]; try lia.
  - done.
  - destruct (float_of_int_finite q) as (m & e & Hq); [lia|].
    rewrite Z.add_0_l, Hq. done.
  - destruct (float_of_int_finite p) as (m & e & Hp); [lia|].
    rewrite Z.add_0_r, Hp. done.
  - by apply fadd_float_of_int_pos.
Qed.

(** * Reasoning about runs *)

Section Logic.
Context {T : Torch} {H : Haven}.


Lemma wp_ret {A} (a : A) w Q E : Q a w -> wp (ret a) w Q E.
Proof. done. Qed.

Lemma wp_raise {A} e w (Q : A -> World -> Prop) E : E e w -> wp (raise e) w Q E.
Proof. done. Qed.

Lemma wp_bind {A B} (m : M A) (k : A -> M B) w Q E :
  wp m w (fun a w' => wp (k a) w' Q E) E -> wp (bind m k) w Q E.
Proof. unfold wp, bind. by destruct (m w) as [[a|e] w']. Qed.

Lemma wp_modify f w Q E : Q tt (f w) -> wp (modify f) w Q E.
Proof. done. Qed.

Lemma wp_gets {A} (f : World -> A) w Q E : Q (f w) w -> wp (gets f) w Q E.
Proof. done. Qed.

Lemma wp_lift {A} (r : Result A) w (Q : A -> World -> Prop) E :
  match r with Ok a => Q a w | Raise e => E e w end -> wp (lift r) w Q E.
Proof. done. Qed.

Lemma wp_mono {A} (m : M A) w (Q Q' : A -> World -> Prop) (E E' : exn -> World -> Prop) :
  wp m w Q E ->
  (forall a w', Q a w' -> Q' a w') ->
  (forall e w', E e w' -> E' e w') ->
  wp m w Q' E'.
Proof. unfold wp. destruct (m w) as [[a|e] w']; auto. Qed.

Lemma wp_run {A} (m : M A) w Q E r w' :
  wp m w Q E -> m w = (r, w') ->
  match r with Ok a => Q a w' | Raise e => E e w' end.
Proof. unfold wp. intros Hwp Hr. rewrite Hr in Hwp. by destruct r. Qed.

Lemma wp_of_run {A} (m : M A) w (Q : A -> World -> Prop) (E : exn -> World -> Prop) :
  (forall r w', m w = (r, w') ->
                match r with Ok a => Q a w' | Raise e => E e w' end) ->
  wp m w Q E.
Proof.
  unfold wp. intros Hr. destruct (m w) as [r w'] eqn:Hw.
  specialize (Hr r w' eq_refl). by destruct r.
Qed.


Lemma wp_reads {A} (m : M A) w (Q : A -> World -> Prop) (E : exn -> World -> Prop) :
  reads m ->
  (forall a, m w = (Ok a, w) -> Q a w) ->
  (forall e, m w = (Raise e, w) -> E e w) ->
  wp m w Q E.
Proof.
  intros Hm HQ HE. unfold wp. specialize (Hm w).
  destruct (m w) as [[a|e] w'] eqn:Hw; simpl in Hm; subst; auto.
Qed.

Lemma reads_ret {A} (a : A) : reads (ret a).
Proof. done. Qed.

Lemma reads_raise {A} e : reads (@raise T A e).
Proof. done. Qed.

Lemma reads_gets {A} (f : World -> A) : reads (gets f).
Proof. done. Qed.

Lemma reads_lift {A} (r : Result A) : reads (lift r).
Proof. done. Qed.

Lemma reads_bind {A B} (m : M A) (k : A -> M B) :
  reads m -> (forall a, reads (k a)) -> reads (bind m k).
Proof.
  intros Hm Hk w. unfold bind. specialize (Hm w).
  destruct (m w) as [[a|e] w']; simpl in *; subst; [apply Hk | done].
Qed.

Create HintDb reads discriminated.
#[local] Hint Resolve reads_ret reads_raise reads_gets reads_lift : reads.

Ltac reads_tac :=
  repeat match goal with
    | |- reads (bind _ _) => apply reads_bind; [ | intros ]
    | |- reads (match ?x with _ => _ end) => destruct x
    | |- reads (if ?b then _ else _) => destruct b
    | |- reads _ => solve [ eauto with reads ]
    end.

Lemma reads_getitem d k : reads (getitem d k).
Proof. unfold getitem. reads_tac. Qed.

Lemma reads_attr {A} (o : option A) : reads (attr o).
Proof. unfold attr. reads_tac. Qed.

Lemma reads_py_len o : reads (py_len o).
Proof. unfold py_len. reads_tac. Qed.

Lemma reads_py_range a b : reads (py_range a b).
Proof. unfold py_range. reads_tac. Qed.

Lemma reads_py_last l : reads (py_last l).
Proof. unfold py_last. reads_tac. Qed.

Lemma reads_py_mod a b : reads (py_mod a b).
Proof. unfold py_mod. reads_tac. Qed.

Lemma reads_py_truediv x n : reads (py_truediv x n).
Proof. unfold py_truediv. reads_tac. Qed.

Lemma reads_path_exists p : reads (path_exists p).
Proof. unfold path_exists. reads_tac. Qed.

Lemma reads_torch_load p : reads (torch_load p).
Proof. unfold torch_load. reads_tac. Qed.

Lemma reads_load_pkl p : reads (load_pkl p).
Proof. unfold load_pkl. reads_tac. Qed.

Lemma reads_eq_sum a b : reads (eq_sum a b).
Proof. unfold eq_sum. reads_tac. Qed.

#[local] Hint Resolve reads_getitem reads_attr reads_py_len reads_py_range
  reads_py_last reads_py_mod reads_py_truediv reads_path_exists
  reads_torch_load reads_load_pkl reads_eq_sum : reads.

Lemma reads_new_DataLoader d s b : reads (new_DataLoader d s b).
Proof. unfold new_DataLoader. reads_tac. Qed.
#[local] Hint Resolve reads_new_DataLoader : reads.

Lemma reads_checkpoint mp sp m : reads (checkpoint mp sp m).
Proof. unfold checkpoint. reads_tac. Qed.
#[local] Hint Resolve reads_checkpoint : reads.


Section Keeps.
Context (R : relation World) `{!PreOrder R}.

Lemma keeps_ret {A} (a : A) : keeps R (ret a).
Proof. intros w. simpl. reflexivity. Qed.

Lemma keeps_raise {A} e : keeps R (@raise T A e).
Proof. intros w. simpl. reflexivity. Qed.

Lemma keeps_gets {A} (f : World -> A) : keeps R (gets f).
Proof. intros w. simpl. reflexivity. Qed.

Lemma keeps_lift {A} (r : Result A) : keeps R (lift r).
Proof. intros w. simpl. reflexivity. Qed.

Lemma keeps_reads {A} (m : M A) : reads m -> keeps R m.
Proof. intros Hm w. rewrite Hm. reflexivity. Qed.

Lemma keeps_modify f : (forall w, R w (f w)) -> keeps R (modify f).
Proof. intros Hf w. apply Hf. Qed.

Lemma keeps_bind {A B} (m : M A) (k : A -> M B) :
  keeps R m -> (forall a, keeps R (k a)) -> keeps R (bind m k).
Proof.
  intros Hm Hk w. unfold bind. specialize (Hm w).
  destruct (m w) as [[a|e] w']; simpl in *; [|done].
  etransitivity; [exact Hm | apply Hk].
Qed.

Lemma wp_keeps {A} (m : M A) w (Q : A -> World -> Prop) (E : exn -> World -> Prop) :
  keeps R m ->
  (forall a w', R w w' -> Q a w') ->
  (forall e w', R w w' -> E e w') ->
  wp m w Q E.
Proof.
  intros Hm HQ HE. unfold wp. specialize (Hm w).
  destruct (m w) as [[a|e] w']; simpl in Hm; auto.
Qed.

End Keeps.

(** ** Paths of a checkpoint directory *)

Lemma path_join_inj d a b : path_join d a = path_join d b -> a = b.
Proof. unfold path_join. intros Hab. apply app_inv_head in Hab. congruence. Qed.

Lemma path_join_ne d a b : a <> b -> path_join d a <> path_join d b.
Proof. intros Hne Heq. by apply Hne, (path_join_inj d). Qed.

Lemma path_join_inside d a : d `prefix_of` path_join d a.
Proof. by exists [a]. Qed.

(** ** The prologue of [trainval] *)

Lemma bind_ok {A B} (m : M A) (k : A -> M B) w a w' :
  m w = (Ok a, w') -> bind m k w = k a w'.
Proof. unfold bind. by intros ->. Qed.

Lemma bind_raise {A B} (m : M A) (k : A -> M B) w e w' :
  m w = (Raise e, w') -> bind m k w = (Raise e, w').
Proof. unfold bind. by intros ->. Qed.

Lemma reads_run {A} (m : M A) w r w' : reads m -> m w = (r, w') -> w' = w.
Proof. intros Hm Hr. specialize (Hm w). by rewrite Hr in Hm. Qed.

Lemma reset_run (reset : bool) savedir w :
  (if reset then delete_experiment savedir true else ret tt) w
  = (Ok tt, after_reset reset savedir w).
Proof. by destruct reset. Qed.

Lemma after_reset_calls reset savedir w :
  calls (after_reset reset savedir w) = calls w.
Proof. by destruct reset. Qed.

Lemma after_reset_stdout reset savedir w :
  stdout (after_reset reset savedir w) = stdout w.
Proof. by destruct reset. Qed.

(** ** State dictionaries *)

Lemma hidden_key_inj j k a b : hidden_key j a = hidden_key k b -> j = k /\ a = b.
Proof.
  unfold hidden_key. intros [= Hjk ->]. split; [|done].
  by apply (inj pretty) in Hjk.
Qed.

Lemma hidden_state_dict_lookup_lt k ls j name :
  (j < k)%nat -> hidden_state_dict k ls !! hidden_key j name = None.
Proof.
  revert k. induction ls as [|l ls IH]; intros k Hjk; simpl; [done|].
  rewrite !lookup_insert_ne; [apply IH; lia | |];
    intros Heq; apply hidden_key_inj in Heq; lia.
Qed.

Lemma hidden_state_dict_lookup_weight k ls j :
  (k <= j)%nat ->
  hidden_state_dict k ls !! hidden_key j "weight"
  = (fun l => data (weight l)) <$> ls !! (j - k)%nat.
Proof.
  revert k. induction ls as [|l ls IH]; intros k Hjk; simpl; [done|].
  destruct (decide (j = k)) as [->|Hne].
  - by rewrite lookup_insert_eq, Nat.sub_diag.
  - rewrite !lookup_insert_ne by (intros Heq; apply hidden_key_inj in Heq; lia).
    rewrite IH by lia. by replace (j - k)%nat with (S (j - S k)) by lia.
Qed.

Lemma hidden_state_dict_lookup_bias k ls j :
  (k <= j)%nat ->
  hidden_state_dict k ls !! hidden_key j "bias"
  = (fun l => data (bias l)) <$> ls !! (j - k)%nat.
Proof.
  revert k. induction ls as [|l ls IH]; intros k Hjk; simpl; [done|].
  destruct (decide (j = k)) as [->|Hne].
  - rewrite lookup_insert_ne by (intros Heq; by apply hidden_key_inj in Heq as [_ [=]]).
    by rewrite lookup_insert_eq, Nat.sub_diag.
  - rewrite !lookup_insert_ne by (intros Heq; apply hidden_key_inj in Heq; lia).
    rewrite IH by lia. by replace (j - k)%nat with (S (j - S k)) by lia.
Qed.

Lemma hidden_state_dict_lookup_output k ls name :
  hidden_state_dict k ls !! output_key name = None.
Proof. revert k. induction ls as [|l ls IH]; intros k; simpl; [done|]. by rewrite !lookup_insert_ne. Qed.

Lemma state_dict_lookup_weight self j :
  state_dict self !! hidden_key j "weight"
  = (fun l => data (weight l)) <$> hidden_layers self !! j.
Proof.
  unfold state_dict. rewrite !lookup_insert_ne by done.
  rewrite hidden_state_dict_lookup_weight by lia. by rewrite Nat.sub_0_r.
Qed.

Lemma state_dict_lookup_bias self j :
  state_dict self !! hidden_key j "bias"
  = (fun l => data (bias l)) <$> hidden_layers self !! j.
Proof.
  unfold state_dict. rewrite !lookup_insert_ne by done.
  rewrite hidden_state_dict_lookup_bias by lia. by rewrite Nat.sub_0_r.
Qed.

Lemma state_dict_lookup_output_weight self :
  state_dict self !! output_key "weight" = Some (data (weight (output_layer self))).
Proof. unfold state_dict. by rewrite lookup_insert_eq. Qed.

Lemma state_dict_lookup_output_bias self :
  state_dict self !! output_key "bias" = Some (data (bias (output_layer self))).
Proof. unfold state_dict. rewrite lookup_insert_ne by done. by rewrite lookup_insert_eq. Qed.


Lemma state_dict_inj a b :
  state_dict a = state_dict b ->
  layer_data <$> hidden_layers a = layer_data <$> hidden_layers b /\
  layer_data (output_layer a) = layer_data (output_layer b).
Proof.
  intros Heq. split.
  - apply list_eq. intros j. rewrite !list_lookup_fmap.
    pose proof (state_dict_lookup_weight a j) as Hwa.
    pose proof (state_dict_lookup_bias a j) as Hba.
    rewrite Heq, state_dict_lookup_weight in Hwa.
    rewrite Heq, state_dict_lookup_bias in Hba.
    destruct (hidden_layers a !! j) as [la|], (hidden_layers b !! j) as [lb|];
      simpl in *; try done.
    unfold layer_data. congruence.
  - pose proof (state_dict_lookup_output_weight a) as Hwa.
    pose proof (state_dict_lookup_output_bias a) as Hba.
    rewrite Heq, state_dict_lookup_output_weight in Hwa.
    rewrite Heq, state_dict_lookup_output_bias in Hba.
    unfold layer_data. congruence.
Qed.

Lemma Linear_call_ext l1 l2 x :
  layer_data l1 = layer_data l2 -> Linear_call l1 x = Linear_call l2 x.
Proof. unfold layer_data, Linear_call. by intros [= -> ->]. Qed.

Lemma forward_hidden_ext ls1 ls2 x :
  layer_data <$> ls1 = layer_data <$> ls2 ->
  forward_hidden ls1 x = forward_hidden ls2 x.
Proof.
  revert ls2 x. induction ls1 as [|l1 ls1 IH]; intros [|l2 ls2] x Heq; try done.
  rewrite !fmap_cons in Heq. injection Heq as Hw Hb Hls. simpl.
  rewrite (Linear_call_ext l1 l2 x) by (unfold layer_data; congruence).
  destruct (Linear_call l2 x); [by apply IH | done].
Qed.

Lemma forward_ext a b x :
  input_size a = input_size b ->
  state_dict a = state_dict b ->
  forward a x = forward b x.
Proof.
  intros Hi Hsd. apply state_dict_inj in Hsd as [Hh Ho]. unfold forward.
  rewrite Hi. destruct (view_rows x (input_size b)) as [x'|]; [|done].
  rewrite (forward_hidden_ext _ _ x' Hh).
  destruct (forward_hidden (hidden_layers b) x'); [|done].
  by apply Linear_call_ext.
Qed.

Lemma load_param_Ok sd key p p' :
  load_param sd key p = Ok p' ->
  sd !! key = Some (data p') /\ grad p' = grad p.
Proof.
  unfold load_param. destruct (sd !! key) as [t|]; [|done].
  case_decide; [|done]. by intros [= <-].
Qed.

Lemma load_linear_Ok sd key l l' :
  load_linear sd key l = Ok l' ->
  sd !! key "weight" = Some (data (weight l')) /\
  sd !! key "bias" = Some (data (bias l')).
Proof.
  unfold load_linear, rbind.
  destruct (load_param sd (key "weight") (weight l)) as [w|] eqn:Hw; [|done].
  destruct (load_param sd (key "bias") (bias l)) as [b|] eqn:Hb; [|done].
  intros [= <-]. simpl.
  apply load_param_Ok in Hw as [? _], Hb as [? _]. done.
Qed.

Lemma load_hidden_Ok sd k ls ls' :
  load_hidden sd k ls = Ok ls' ->
  hidden_state_dict k ls' ⊆ sd /\
  dom (hidden_state_dict k ls') = dom (hidden_state_dict k ls).
Proof.
  revert k ls'. induction ls as [|l ls IH]; intros k ls'; simpl.
  - intros [= <-]. split; [apply map_empty_subseteq | done].
  - unfold rbind.
    destruct (load_linear sd (hidden_key k) l) as [l'|] eqn:Hl; [|done].
    destruct (load_hidden sd (S k) ls) as [rest|] eqn:Hrest; [|done].
    intros [= <-]. simpl.
    apply load_linear_Ok in Hl as [Hw Hb]. apply IH in Hrest as [Hsub Hdom].
    split.
    + by do 2 (apply insert_subseteq_l; [done|]).
    + rewrite !dom_insert_L. by rewrite Hdom.
Qed.

Lemma load_state_dict_Ok self sd m :
  load_state_dict self sd = Ok m ->
  state_dict m = sd /\ input_size m = input_size self /\
  opt m = opt self /\ training m = training self /\
  length (hidden_layers m) = length (hidden_layers self).
Proof.
  unfold load_state_dict, rbind. case_decide as Hdom; [|done].
  destruct (load_hidden sd 0 (hidden_layers self)) as [hl|] eqn:Hhl; [|done].
  destruct (load_linear sd output_key (output_layer self)) as [ol|] eqn:Hol; [|done].
  intros [= <-]. simpl. split_and!; try done.
  - apply load_hidden_Ok in Hhl as [Hsub Hd]. apply load_linear_Ok in Hol as [Hw Hb].
    apply subseteq_dom_eq.
    + unfold state_dict. simpl. by do 2 (apply insert_subseteq_l; [done|]).
    + rewrite Hdom. unfold state_dict. simpl. rewrite !dom_insert_L. by rewrite Hd.
  - clear Hdom Hol. revert hl Hhl. generalize 0%nat.
    induction (hidden_layers self) as [|l ls IH]; intros k hl; simpl.
    + by intros [= <-].
    + unfold rbind. destruct (load_linear sd (hidden_key k) l); [|done].
      destruct (load_hidden sd (S k) ls) as [rest|] eqn:Hrest; [|done].
      intros [= <-]. simpl. f_equal. by eapply IH.
Qed.

Lemma parameters_length self :
  length (parameters self) = (2 * length (hidden_layers self) + 2)%nat.
Proof.
  unfold parameters, module_parameters. rewrite length_app. simpl.
  assert (Hc : forall ls : list Linear,
             length (concat (linear_parameters <$> ls)) = (2 * length ls)%nat).
  { induction ls as [|l ls IH]; [done|].
    rewrite fmap_cons. cbn [concat]. rewrite length_app, IH. simpl. lia. }
  rewrite Hc. lia.
Qed.

(** What [set_state_dict] leaves in memory is exactly the dictionary it
    was given. *)
Lemma set_state_dict_Ok self st m :
  set_state_dict self st = Ok m ->
  get_state_dict m = st /\ input_size m = input_size self.
Proof.
  unfold set_state_dict, rbind.
  destruct (load_state_dict self (sd_model st)) as [m1|] eqn:Hload; [|done].
  unfold opt_load_state_dict. case_decide; [|done]. intros [= <-].
  apply load_state_dict_Ok in Hload as (Hsd & Hin & _).
  unfold get_state_dict. simpl. split; [|done].
  destruct st as [sdm sdo]. simpl in *. f_equal.
  by rewrite <-Hsd.
Qed.

(** ** The world after the prologue *)

Lemma after_reset_fresh reset savedir name w :
  fs w !! path_join savedir name = None ->
  fs (after_reset reset savedir w) !! path_join savedir name = None.
Proof.
  destruct reset; simpl; [|done]. intros Hw.
  apply map_lookup_filter_None. by left.
Qed.

Lemma after_reset_deleted savedir name w :
  fs (after_reset true savedir w) !! path_join savedir name = None.
Proof.
  simpl. apply map_lookup_filter_None. right. intros x _ Hx.
  simpl in Hx. apply Hx, path_join_inside.
Qed.

(** ** Unsupported names *)

Lemma py_eq_str_false v s : v <> VStr s -> py_eq_str v s = false.
Proof.
  intros Hv. destruct v as [s'| |]; simpl; try done.
  apply bool_decide_eq_false_2. congruence.
Qed.

Lemma MLP_init_run i c w :
  exists m w', MLP_init i c w = (Ok m, w') /\ same_but_rng w w'.
Proof.
  unfold MLP_init, bind, Linear_new.
  destruct (Linear_init i 256 (rng w)) as [[wt1 b1] g1].
  simpl. destruct (Linear_init 256 c g1) as [[wt2 b2] g2]. simpl.
  eexists _, _. split; [done|]. by repeat split.
Qed.

Lemma get_loader_unknown dn datadir split bs w :
  dn <> VStr "mnist" -> get_loader dn datadir split bs w = (Ok None, w).
Proof. intros Hdn. unfold get_loader. by rewrite py_eq_str_false. Qed.

Lemma get_model_unknown mn w :
  mn <> VStr "mlp" -> get_model mn w = (Ok None, w).
Proof. intros Hmn. unfold get_model. by rewrite py_eq_str_false. Qed.

Lemma prologue_world_calls e d w : calls (prologue_world e d w) = calls w.
Proof. done. Qed.

Lemma prologue_world_score e d w name :
  name <> "exp_dict.json" ->
  fs (prologue_world e d w) !! path_join d name = fs w !! path_join d name.
Proof.
  intros Hne. simpl. rewrite lookup_insert_ne; [done|].
  apply path_join_ne. congruence.
Qed.

(** C10. The labels of a batch do not influence the prediction: on two
    batches with the same images, [predict_on_batch] returns the same
    labels (and leaves the same world), whatever the label components
    are. *)
Theorem predict_on_batch_ignores_labels self images labels1 labels2 w :
  predict_on_batch self (images, labels1) w
  = predict_on_batch self (images, labels2) w.
Proof. reflexivity. Qed.

(** ** One training step *)

Lemma log_calls_calls ops w :
  calls (log_calls ops w) = calls w ++ calls_of (grad_enabled w) ops.
Proof.
  unfold log_calls, calls_of. revert w.
  induction ops as [|o ops IH]; intros w; simpl.
  - by rewrite (right_id_L [] (++)).
  - rewrite IH. simpl. by rewrite <-(assoc_L (++)).
Qed.

Lemma log_calls_grad ops w : grad_enabled (log_calls ops w) = grad_enabled w.
Proof.
  unfold log_calls. revert w. induction ops as [|o ops IH]; intros w; simpl; [done|].
  by rewrite IH.
Qed.

Lemma log_calls_stdout ops w : stdout (log_calls ops w) = stdout w.
Proof.
  unfold log_calls. revert w. induction ops as [|o ops IH]; intros w; simpl; [done|].
  by rewrite IH.
Qed.

Lemma log_calls_rng ops w : rng (log_calls ops w) = rng w.
Proof.
  unfold log_calls. revert w. induction ops as [|o ops IH]; intros w; simpl; [done|].
  by rewrite IH.
Qed.

Lemma train_on_batch_step self batch w x self' :
  grad_enabled w = true ->
  train_step self batch = Some (x, self') ->
  train_on_batch self batch w = (Ok (x, self'), log_calls train_ops w).
Proof.
  intros Hg. unfold train_step, train_on_batch. destruct batch as [images labels].
  simpl. unfold zero_grad, call_module, log_softmax, nll_loss, backward, opt_step,
    log_call, bind, modify, ret, gets, raise. simpl.
  destruct (forward (zero_grads self) images) as [logits|]; [|done]. simpl.
  destruct (F_nll_loss RedMean (F_log_softmax logits) labels) as [loss|]; [|done].
  simpl. rewrite Hg. by intros [= <- <-].
Qed.

Lemma predict_on_batch_step self batch w pred :
  predict self batch = Some pred ->
  predict_on_batch self batch w = (Ok pred, log_calls predict_ops w).
Proof.
  unfold predict, predict_on_batch. destruct batch as [images labels]. simpl.
  unfold call_module, log_softmax, log_call, bind, modify, ret, raise. simpl.
  destruct (forward self images) as [logits|]; [|done]. by intros [= <-].
Qed.

Lemma fsum_snoc xs x : fsum (xs ++ [x]) = fadd (fsum xs) x.
Proof. unfold fsum. by rewrite fold_left_app. Qed.

(** ** A pass over the training loader *)

Lemma running_mean_last done loss rest :
  running_mean (done ++ loss :: rest) (Z.of_nat (length done))
  = fdiv (fadd (fsum done) loss) (float_of_int (Z.of_nat (length done) + 1)).
Proof.
  unfold running_mean, mean.
  replace (Z.to_nat (Z.of_nat (length done) + 1)) with (length done + 1)%nat by lia.
  rewrite take_app_add'; [|done]. simpl. rewrite take_0.
  rewrite fsum_snoc, length_app. simpl. do 2 f_equal. lia.
Qed.

Lemma train_loop_run batches : forall self done losses self' w n,
  grad_enabled w = true ->
  n / 10 <> 0 ->
  train_steps self batches = Some (losses, self') ->
  exists w',
    train_loop self n (fsum done) (Z.of_nat (length done)) batches w
    = (Ok (fsum (done ++ losses), self'), w') /\
    grad_enabled w' = true /\ rng w' = rng w /\
    calls w' = calls w ++ concat (replicate (length batches) (calls_of true train_ops)) /\
    stdout w' = stdout w ++
      ((fun i => PTrainLoss i (running_mean (done ++ losses) i)) <$>
         filter (fun i => i mod (n / 10) = 0)
                (seqZ (Z.of_nat (length done)) (Z.of_nat (length batches)))).
Proof.
  induction batches as [|b bs IH]; intros self done losses self' w n Hg Hn Hsteps.
  - injection Hsteps as <- <-. exists w. simpl.
    rewrite !(right_id_L [] (++)). done.
  - simpl in Hsteps.
    destruct (train_step self b) as [[loss self1]|] eqn:Hstep; [|done].
    destruct (train_steps self1 bs) as [[losses1 self2]|] eqn:Hrest; [|done].
    injection Hsteps as <- <-.
    cbn [train_loop].
    rewrite (bind_ok _ _ _ _ _ (train_on_batch_step _ _ _ _ _ Hg Hstep)).
    set (w1 := log_calls train_ops w).
    set (i := Z.of_nat (length done)).
    unfold py_mod. rewrite (proj2 (Z.eqb_neq _ _) Hn).
    rewrite (bind_ok (ret (i mod (n / 10))) _ w1 _ w1 eq_refl).
    set (line := PTrainLoss i (fdiv (fadd (fsum done) loss) (float_of_int (i + 1)))).
    set (w2 := if decide (i mod (n / 10) = 0) then add_stdout line w1 else w1).
    assert (Hprint :
      (if i mod (n / 10) =? 0
       then x <- py_truediv (fadd (fsum done) loss) (i + 1) ;; print (PTrainLoss i x)
       else ret tt) w1 = (Ok tt, w2)).
    { unfold w2. destruct (decide (i mod (n / 10) = 0)) as [Hr|Hr].
      - rewrite Hr. simpl. unfold py_truediv.
        replace (i + 1 =? 0) with false by lia. done.
      - rewrite (proj2 (Z.eqb_neq _ _) Hr). done. }
    rewrite (bind_ok _ _ _ _ _ Hprint).
    assert (Hg2 : grad_enabled w2 = true).
    { unfold w2, w1. by destruct (decide _). }
    destruct (IH self1 (done ++ [loss]) losses1 self2 w2 n Hg2 Hn Hrest)
      as (w' & Hrun & Hg' & Hrng' & Hcalls' & Hout').
    rewrite fsum_snoc, length_app in Hrun. simpl in Hrun.
    replace (Z.of_nat (length done + 1)) with (i + 1) in Hrun by lia.
    rewrite <-(assoc_L (++)) in Hrun. simpl in Hrun.
    exists w'. split_and!; [done|done| | |].
    + rewrite Hrng'. unfold w2, w1. by destruct (decide _).
    + rewrite Hcalls'. cbn [replicate concat length]. rewrite (assoc_L (++)). f_equal.
      assert (Hc1 : calls w1 = calls w ++ calls_of true train_ops).
      { unfold w1. by rewrite log_calls_calls, Hg. }
      unfold w2. by destruct (decide _).
    + rewrite Hout'. rewrite length_app. simpl.
      replace (Z.of_nat (length done + 1)) with (i + 1) by lia.
      rewrite <-(assoc_L (++)). simpl.
      rewrite (seqZ_cons i) by lia.
      replace (Z.pred (Z.of_nat (S (length bs)))) with (Z.of_nat (length bs)) by lia.
      replace (Z.succ i) with (i + 1) by lia.
      rewrite filter_cons.
      assert (Ho1 : stdout w1 = stdout w) by apply log_calls_stdout.
      unfold w2. destruct (decide (i mod (n / 10) = 0)); [|by rewrite Ho1].
      cbn [stdout add_stdout]. rewrite Ho1, fmap_cons, <-(assoc_L (++)).
      cbn [app]. do 3 f_equal.
      unfold line, i. by rewrite running_mean_last.
Qed.

Lemma train_steps_length batches : forall self losses self',
  train_steps self batches = Some (losses, self') ->
  length losses = length batches.
Proof.
  induction batches as [|b bs IH]; intros self losses self' Hs; simpl in Hs.
  - by injection Hs as <- <-.
  - destruct (train_step self b) as [[loss self1]|]; [|done].
    destruct (train_steps self1 bs) as [[losses1 self2]|] eqn:Hrest; [|done].
    injection Hs as <- <-. simpl. f_equal. by eapply IH.
Qed.

Lemma tenth_nonzero n : 10 <= n -> n / 10 <> 0.
Proof. intros Hn. pose proof (Z.div_le_lower_bound n 10 1). lia. Qed.

Lemma tenth_zero n : 0 <= n < 10 -> n / 10 = 0.
Proof. intros Hn. by apply Z.div_small. Qed.

(** A whole training pass over a loader of at least ten batches, on
    well-shaped batches. *)
Lemma train_on_loader_run self loader w losses self' :
  grad_enabled w = true ->
  10 <= loader_len loader ->
  train_steps (set_training true self) (loader_iter loader (rng w)).1
  = Some (losses, self') ->
  exists w',
    train_on_loader self (Some loader) w
    = (Ok (mkTrainDict (mean losses), self'), w') /\
    grad_enabled w' = true /\
    calls w' = calls w ++
      concat (replicate (Z.to_nat (loader_len loader)) (calls_of true train_ops)) /\
    stdout w' = stdout w ++
      ((fun i => PTrainLoss i (running_mean losses i)) <$>
         progress_indices (loader_len loader)).
Proof.
  intros Hg Hn Hsteps.
  pose proof (loader_iter_len loader (rng w)) as Hlen.
  unfold train_on_loader. unfold py_len.
  rewrite (bind_ok (ret (loader_len loader)) _ w _ w eq_refl).
  unfold py_iter. unfold bind at 1.
  destruct (loader_iter loader (rng w)) as [batches g]. simpl in Hsteps, Hlen.
  destruct (train_loop_run batches (set_training true self) [] losses self'
              (set_rng g w) (loader_len loader) Hg (tenth_nonzero _ Hn) Hsteps)
    as (w' & Hrun & Hg' & _ & Hcalls & Hout).
  simpl in Hrun. change (fsum []) with fzero in Hrun.
  rewrite (bind_ok _ _ _ _ _ Hrun).
  unfold py_truediv. replace (loader_len loader =? 0) with false by lia.
  exists w'. split_and!; [|done| |].
  - unfold mean. by rewrite (train_steps_length _ _ _ _ Hsteps), <-Hlen.
  - rewrite Hcalls. cbn [calls set_rng]. by rewrite <-Hlen, Nat2Z.id.
  - rewrite Hout. cbn [stdout set_rng app length]. unfold progress_indices.
    by rewrite <-Hlen.
Qed.

(** A pass over a loader of fewer than ten batches stops at the progress
    line of its first batch. *)
Lemma train_on_loader_small self loader w b r :
  grad_enabled w = true ->
  1 <= loader_len loader < 10 ->
  head (loader_iter loader (rng w)).1 = Some b ->
  train_step (set_training true self) b = Some r ->
  exists w',
    train_on_loader self (Some loader) w = (Raise ZeroDivisionError, w') /\
    stdout w' = stdout w /\
    calls w' = calls w ++ calls_of true train_ops.
Proof.
  intros Hg Hn Hhead Hstep.
  unfold train_on_loader. unfold py_len.
  rewrite (bind_ok (ret (loader_len loader)) _ w _ w eq_refl).
  unfold py_iter. unfold bind at 1.
  destruct (loader_iter loader (rng w)) as [batches g]. simpl in Hhead.
  destruct batches as [|b' bs]; [done|]. injection Hhead as ->.
  destruct r as [loss self1].
  assert (Hg1 : grad_enabled (set_rng g w) = true) by done.
  cbn [train_loop]. unfold bind at 1.
  rewrite (bind_ok _ _ _ _ _ (train_on_batch_step _ _ _ _ _ Hg1 Hstep)).
  unfold py_mod. rewrite tenth_zero by lia. simpl.
  eexists. split; [reflexivity|]. simpl. rewrite Hg.
  split; [done|]. by rewrite <-!(assoc_L (++)).
Qed.

(** ** A pass over the validation loader *)

Lemma zsum_snoc l x : zsum (l ++ [x]) = zsum l + x.
Proof. unfold zsum. induction l as [|y l IH]; simpl; [lia|]. rewrite IH. lia. Qed.

Lemma zsum_app l k : zsum (l ++ k) = zsum l + zsum k.
Proof. unfold zsum. induction l as [|y l IH]; simpl; [lia|]. rewrite IH. lia. Qed.

Lemma running_score_last dc c cs ds s ss :
  length dc = length ds ->
  running_score (dc ++ c :: cs) (ds ++ s :: ss) (Z.of_nat (length dc))
  = fdiv (fadd (fsum (float_of_int <$> dc)) (float_of_int c))
         (float_of_int (zsum ds + s)).
Proof.
  intros Hlen. unfold running_score.
  replace (Z.to_nat (Z.of_nat (length dc) + 1)) with (length dc + 1)%nat by lia.
  rewrite take_app_add'; [|done]. rewrite Hlen, take_app_add'; [|done].
  simpl. rewrite !take_0, fmap_app, list_fmap_singleton, fsum_snoc, zsum_snoc. done.
Qed.

Lemma batch_correct_Some self b c :
  batch_correct self b = Some c ->
  exists pred, predict self b = Some pred /\ matches pred b.2 = Some c.
Proof.
  unfold batch_correct. destruct (predict self b) as [pred|]; [|done].
  intros Hm. by exists pred.
Qed.

Lemma val_loop_run batches : forall self dc ds cs w n,
  grad_enabled w = false ->
  n / 10 <> 0 ->
  length dc = length ds ->
  0 <= zsum ds ->
  Forall2 (fun b c => batch_correct self b = Some c) batches cs ->
  Forall (fun b => 0 < batch_size_of b) batches ->
  exists w',
    val_loop self n (fsum (float_of_int <$> dc)) (zsum ds)
             (Z.of_nat (length dc)) batches w
    = (Ok (fsum (float_of_int <$> (dc ++ cs)),
           zsum (ds ++ (batch_size_of <$> batches))), w') /\
    grad_enabled w' = false /\ rng w' = rng w /\
    calls w' = calls w ++
      concat (replicate (length batches) (calls_of false predict_ops)) /\
    stdout w' = stdout w ++
      ((fun i => PValScore i (running_score (dc ++ cs)
                                (ds ++ (batch_size_of <$> batches)) i)) <$>
         filter (fun i => i mod (n / 10) = 0)
                (seqZ (Z.of_nat (length dc)) (Z.of_nat (length batches)))).
Proof.
  induction batches as [|b bs IH]; intros self dc ds cs w n Hg Hn Hlen Hpos Hcs Hsz.
  - apply Forall2_nil_inv_l in Hcs as ->. exists w. simpl.
    rewrite !(right_id_L [] (++)). done.
  - apply Forall2_cons_inv_l in Hcs as (c & cs' & Hc & Hcs' & ->).
    apply Forall_cons in Hsz as [Hb Hsz].
    apply batch_correct_Some in Hc as (pred & Hpred & Hmatch).
    cbn [val_loop].
    rewrite (bind_ok _ _ _ _ _ (predict_on_batch_step _ _ w _ Hpred)).
    set (w1 := log_calls predict_ops w).
    unfold eq_sum. rewrite Hmatch.
    rewrite (bind_ok (ret c) _ w1 _ w1 eq_refl).
    set (i := Z.of_nat (length dc)).
    set (s := Z.of_nat (length b.2)).
    assert (Hs : 0 < s) by done.
    unfold py_mod. rewrite (proj2 (Z.eqb_neq _ _) Hn).
    rewrite (bind_ok (ret (i mod (n / 10))) _ w1 _ w1 eq_refl).
    set (se := fadd (fsum (float_of_int <$> dc)) (float_of_int c)).
    set (line := PValScore i (fdiv se (float_of_int (zsum ds + s)))).
    set (w2 := if decide (i mod (n / 10) = 0) then add_stdout line w1 else w1).
    assert (Hprint :
      (if i mod (n / 10) =? 0
       then x <- py_truediv se (zsum ds + s) ;; print (PValScore i x)
       else ret tt) w1 = (Ok tt, w2)).
    { unfold w2. destruct (decide (i mod (n / 10) = 0)) as [Hr|Hr].
      - rewrite Hr. simpl. unfold py_truediv.
        replace (zsum ds + s =? 0) with false by lia. done.
      - rewrite (proj2 (Z.eqb_neq _ _) Hr). done. }
    rewrite (bind_ok _ _ _ _ _ Hprint).
    assert (Hg1 : grad_enabled w1 = false) by (unfold w1; by rewrite log_calls_grad).
    assert (Hg2 : grad_enabled w2 = false) by (unfold w2; by destruct (decide _)).
    assert (Hlen2 : length (dc ++ [c]) = length (ds ++ [s])).
    { rewrite !length_app. simpl. lia. }
    assert (Hpos2 : 0 <= zsum (ds ++ [s])) by (rewrite zsum_snoc; lia).
    destruct (IH self (dc ++ [c]) (ds ++ [s]) cs' w2 n Hg2 Hn Hlen2 Hpos2 Hcs' Hsz)
      as (w' & Hrun & Hg' & Hrng' & Hcalls' & Hout').
    rewrite fmap_app, list_fmap_singleton, fsum_snoc, zsum_snoc, length_app in Hrun.
    cbn [length] in Hrun.
    replace (Z.of_nat (length dc + 1)) with (i + 1) in Hrun by lia.
    rewrite <-!(assoc_L (++)) in Hrun. cbn [app] in Hrun.
    exists w'. split_and!; [done|done| | |].
    + rewrite Hrng'. unfold w2, w1. by destruct (decide _).
    + rewrite Hcalls'. cbn [replicate concat length]. rewrite (assoc_L (++)). f_equal.
      assert (Hc1 : calls w1 = calls w ++ calls_of false predict_ops).
      { unfold w1. by rewrite log_calls_calls, Hg. }
      unfold w2. by destruct (decide _).
    + rewrite Hout'. rewrite length_app. simpl.
      replace (Z.of_nat (length dc + 1)) with (i + 1) by lia.
      rewrite <-!(assoc_L (++)). simpl.
      rewrite (seqZ_cons i) by lia.
      replace (Z.pred (Z.of_nat (S (length bs)))) with (Z.of_nat (length bs)) by lia.
      replace (Z.succ i) with (i + 1) by lia.
      rewrite filter_cons.
      assert (Ho1 : stdout w1 = stdout w) by apply log_calls_stdout.
      unfold w2. destruct (decide (i mod (n / 10) = 0)); [|by rewrite Ho1].
      cbn [stdout add_stdout]. rewrite Ho1, fmap_cons, <-(assoc_L (++)).
      cbn [app]. do 3 f_equal.
      unfold line, se, i, s. by rewrite running_score_last.
Qed.

Lemma zsum_nonneg l : Forall (fun x => 0 <= x) l -> 0 <= zsum l.
Proof. unfold zsum. induction 1; simpl; lia. Qed.

Lemma zsum_pos l : Forall (fun x => 0 < x) l -> l <> [] -> 0 < zsum l.
Proof.
  intros Hl Hne. destruct Hl as [|x l Hx Hl]; [done|].
  pose proof (zsum_nonneg l) as Hnn. unfold zsum in *. simpl.
  assert (0 <= foldr Z.add 0 l); [|lia].
  apply Hnn. eapply Forall_impl; [exact Hl|]. simpl. lia.
Qed.

(** The float accumulator of matches is the exact count. *)
Lemma fsum_float_of_int cs :
  Forall (fun c => 0 <= c) cs -> zsum cs < 2 ^ 53 ->
  fsum (float_of_int <$> cs) = float_of_int (zsum cs).
Proof.
  induction cs as [|c cs IH] using rev_ind; intros Hcs Hsum; [done|].
  apply Forall_app in Hcs as [Hcs Hc]. rewrite Forall_singleton in Hc.
  rewrite zsum_snoc in *. pose proof (zsum_nonneg cs Hcs).
  rewrite fmap_app, list_fmap_singleton, fsum_snoc, IH by (done || lia).
  by apply fadd_float_of_int.
Qed.

Lemma matches_nonneg pred gt c : matches pred gt = Some c -> 0 <= c.
Proof.
  unfold matches, count_eq. case_decide; [intros [= <-]; lia|].
  destruct pred as [|x [|]], gt as [|y [|]]; intros [= <-]; lia.
Qed.

Lemma batch_correct_nonneg self b c : batch_correct self b = Some c -> 0 <= c.
Proof.
  intros Hc. apply batch_correct_Some in Hc as (pred & _ & Hm).
  by eapply matches_nonneg.
Qed.

(** A whole validation pass over a loader of at least ten batches, on
    well-shaped, non-empty batches. *)
Lemma val_on_loader_run self loader w cs :
  let self' := set_training false self in
  let batches := (loader_iter loader (rng w)).1 in
  let sizes := batch_size_of <$> batches in
  10 <= loader_len loader ->
  mapM (batch_correct self') batches = Some cs ->
  Forall (fun b => 0 < batch_size_of b) batches ->
  exists w',
    val_on_loader self (Some loader) w
    = (Ok (mkValDict (fdiv (fsum (float_of_int <$> cs))
                           (float_of_int (zsum sizes))), self'), w') /\
    grad_enabled w' = grad_enabled w /\
    calls w' = calls w ++
      concat (replicate (Z.to_nat (loader_len loader)) (calls_of false predict_ops)) /\
    stdout w' = stdout w ++
      ((fun i => PValScore i (running_score cs sizes i)) <$>
         progress_indices (loader_len loader)).
Proof.
  intros self' batches sizes Hn Hcs Hsz.
  apply mapM_Some in Hcs.
  pose proof (loader_iter_len loader (rng w)) as Hlen. fold batches in Hlen.
  unfold val_on_loader, no_grad.
  set (w0 := set_grad_enabled false w).
  unfold py_len. rewrite (bind_ok (ret (loader_len loader)) _ w0 _ w0 eq_refl).
  unfold py_iter. unfold bind at 1. change (rng w0) with (rng w).
  unfold sizes, batches in *. clear sizes batches.
  destruct (loader_iter loader (rng w)) as [batches g]. simpl in Hcs, Hsz, Hlen |- *.
  destruct (val_loop_run batches self' [] [] cs (set_rng g w0) (loader_len loader)
              eq_refl (tenth_nonzero _ Hn) eq_refl ltac:(done) Hcs Hsz)
    as (w' & Hrun & Hg' & _ & Hcalls & Hout).
  change (fsum (float_of_int <$> [])) with fzero in Hrun.
  change (zsum []) with 0 in Hrun. cbn [app length] in Hrun, Hout.
  change (Z.of_nat 0) with 0 in Hrun.
  fold self'. rewrite (bind_ok _ _ _ _ _ Hrun).
  assert (Hpos : 0 < zsum (batch_size_of <$> batches)).
  { apply zsum_pos.
    - by apply Forall_fmap.
    - destruct batches; [simpl in Hlen; lia|done]. }
  unfold py_truediv.
  replace (zsum (batch_size_of <$> batches) =? 0) with false by lia.
  eexists. split; [reflexivity|]. simpl. split_and!; [done| |].
  - rewrite Hcalls. simpl. by rewrite <-Hlen, Nat2Z.id.
  - rewrite Hout. simpl. unfold progress_indices. by rewrite <-Hlen.
Qed.

Lemma val_on_loader_small self loader w b c :
  1 <= loader_len loader < 10 ->
  head (loader_iter loader (rng w)).1 = Some b ->
  batch_correct (set_training false self) b = Some c ->
  exists w',
    val_on_loader self (Some loader) w = (Raise ZeroDivisionError, w') /\
    stdout w' = stdout w /\
    grad_enabled w' = grad_enabled w /\
    calls w' = calls w ++ calls_of false predict_ops.
Proof.
  intros Hn Hhead Hc.
  apply batch_correct_Some in Hc as (pred & Hpred & Hmatch).
  unfold val_on_loader, no_grad.
  set (w0 := set_grad_enabled false w).
  unfold py_len. rewrite (bind_ok (ret (loader_len loader)) _ w0 _ w0 eq_refl).
  unfold py_iter. unfold bind at 1. change (rng w0) with (rng w).
  destruct (loader_iter loader (rng w)) as [batches g]. simpl in Hhead.
  destruct batches as [|b' bs]; [done|]. injection Hhead as ->.
  cbn [val_loop]. unfold bind at 1.
  rewrite (bind_ok _ _ _ _ _ (predict_on_batch_step _ _ (set_rng g w0) _ Hpred)).
  unfold eq_sum. rewrite Hmatch.
  rewrite (bind_ok (ret c) _ _ _ _ eq_refl).
  unfold py_mod. rewrite tenth_zero by lia. simpl.
  eexists. split; [reflexivity|]. simpl.
  split_and!; [done..|]. by rewrite <-!(assoc_L (++)).
Qed.

(** * The claims about the passes *)

(** C7. The training step and the training pass.  On a well-shaped batch,
    with gradient tracking on, [train_on_batch] zeroes the gradients,
    runs the forward pass, takes its log-softmax, applies the
    mean-reduced negative-log-likelihood loss against the labels,
    back-propagates and applies one optimizer update, in this order, and
    returns the scalar loss; and on a loader of at least ten batches
    [train_on_loader] returns as [train_loss] the mean of the losses of
    its batches, each step starting from the model the previous one
    left. *)
Theorem train_on_batch_and_loader :
  (forall self images labels w logits loss,
     grad_enabled w = true ->
     forward (zero_grads self) images = Some logits ->
     F_nll_loss RedMean (F_log_softmax logits) labels = Some loss ->
     train_on_batch self (images, labels) w
     = (Ok (item loss, sgd_step (backprop loss (zero_grads self))),
        log_calls [OpZeroGrad; OpForward; OpLogSoftmax; OpNllLoss RedMean;
                   OpBackward; OpStep] w)) /\
  (forall self loader w losses self',
     grad_enabled w = true ->
     10 <= loader_len loader ->
     train_steps (set_training true self) (loader_iter loader (rng w)).1
     = Some (losses, self') ->
     exists w',
       train_on_loader self (Some loader) w
       = (Ok (mkTrainDict (mean losses), self'), w') /\
       calls w' = calls w ++
         concat (replicate (Z.to_nat (loader_len loader))
                           (calls_of true train_ops))).
Proof.
  split.
  - intros self images labels w logits loss Hg Hf Hl.
    apply train_on_batch_step; [done|]. unfold train_step. simpl.
    by rewrite Hf, Hl.
  - intros self loader w losses self' Hg Hn Hsteps.
    destruct (train_on_loader_run self loader w losses self' Hg Hn Hsteps)
      as (w' & Hrun & _ & Hcalls & _).
    by exists w'.
Qed.

(** C4. The progress-print modulus.  On a loader with at least one and
    fewer than ten batches, [train_on_loader] and [val_on_loader] raise
    [ZeroDivisionError] at the progress-print test of the first batch,
    before any line is printed; on a loader with at least ten batches
    they print one progress line at every batch index that is a multiple
    of [n_batches // 10], showing the running mean loss, respectively the
    running score. *)
Theorem progress_print_modulus :
  (forall self loader w b r,
     grad_enabled w = true ->
     1 <= loader_len loader < 10 ->
     head (loader_iter loader (rng w)).1 = Some b ->
     train_step (set_training true self) b = Some r ->
     exists w',
       train_on_loader self (Some loader) w = (Raise ZeroDivisionError, w') /\
       stdout w' = stdout w) /\
  (forall self loader w b c,
     1 <= loader_len loader < 10 ->
     head (loader_iter loader (rng w)).1 = Some b ->
     batch_correct (set_training false self) b = Some c ->
     exists w',
       val_on_loader self (Some loader) w = (Raise ZeroDivisionError, w') /\
       stdout w' = stdout w) /\
  (forall self loader w losses self',
     grad_enabled w = true ->
     10 <= loader_len loader ->
     train_steps (set_training true self) (loader_iter loader (rng w)).1
     = Some (losses, self') ->
     exists r w',
       train_on_loader self (Some loader) w = (Ok r, w') /\
       stdout w' = stdout w ++
         ((fun i => PTrainLoss i (running_mean losses i)) <$>
            progress_indices (loader_len loader))) /\
  (forall self loader w cs,
     let batches := (loader_iter loader (rng w)).1 in
     10 <= loader_len loader ->
     mapM (batch_correct (set_training false self)) batches = Some cs ->
     Forall (fun b => 0 < batch_size_of b) batches ->
     exists r w',
       val_on_loader self (Some loader) w = (Ok r, w') /\
       stdout w' = stdout w ++
         ((fun i => PValScore i (running_score cs (batch_size_of <$> batches) i)) <$>
            progress_indices (loader_len loader))).
Proof.
  split_and!.
  - intros self loader w b r Hg Hn Hb Hstep.
    destruct (train_on_loader_small self loader w b r Hg Hn Hb Hstep)
      as (w' & Hrun & Hout & _).
    by exists w'.
  - intros self loader w b c Hn Hb Hc.
    destruct (val_on_loader_small self loader w b c Hn Hb Hc)
      as (w' & Hrun & Hout & _).
    by exists w'.
  - intros self loader w losses self' Hg Hn Hsteps.
    destruct (train_on_loader_run self loader w losses self' Hg Hn Hsteps)
      as (w' & Hrun & _ & _ & Hout).
    by eexists _, w'.
  - intros self loader w cs batches Hn Hcs Hsz.
    destruct (val_on_loader_run self loader w cs Hn Hcs Hsz)
      as (w' & Hrun & _ & _ & Hout).
    by eexists _, w'.
Qed.

(** C6. The validation pass.  On a loader of at least ten well-shaped,
    non-empty batches, [val_on_loader] predicts on every batch with
    gradient tracking disabled (and puts the previous mode back), leaves
    the parameters alone, and returns as [val_acc] the total number of
    predictions that match the ground truth divided by the total number
    of samples. *)
Theorem val_on_loader_accuracy self loader w cs :
  let self' := set_training false self in
  let batches := (loader_iter loader (rng w)).1 in
  10 <= loader_len loader ->
  mapM (batch_correct self') batches = Some cs ->
  Forall (fun b => 0 < batch_size_of b) batches ->
  zsum cs < 2 ^ 53 ->
  exists w',
    val_on_loader self (Some loader) w
    = (Ok (mkValDict (accuracy (zsum cs) (zsum (batch_size_of <$> batches))),
           self'), w') /\
    grad_enabled w' = grad_enabled w /\
    calls w' = calls w ++
      concat (replicate (Z.to_nat (loader_len loader))
                        (calls_of false predict_ops)).
Proof.
  intros self' batches Hn Hcs Hsz Hsum.
  destruct (val_on_loader_run self loader w cs Hn Hcs Hsz)
    as (w' & Hrun & Hg & Hcalls & _).
  exists w'. split_and!; [|done..].
  rewrite Hrun. unfold accuracy. rewrite fsum_float_of_int; [done| |done].
  apply mapM_Some in Hcs. fold self' batches in Hcs.
  clear -Hcs. induction Hcs as [|b c bs cs' Hc _ IH]; constructor; [|done].
  by eapply batch_correct_nonneg.
Qed.

(** * Saving and restoring the model *)

Lemma state_dict_dom_length a b :
  dom (state_dict a) = dom (state_dict b) ->
  length (hidden_layers a) = length (hidden_layers b).
Proof.
  intros Hdom.
  assert (Hw : forall m j, hidden_key j "weight" ∈ dom (state_dict m)
                           <-> (j < length (hidden_layers m))%nat).
  { intros m j. rewrite elem_of_dom, state_dict_lookup_weight, fmap_is_Some.
    apply lookup_lt_is_Some. }
  destruct (decide (length (hidden_layers a) = length (hidden_layers b)))
    as [|Hne]; [done|exfalso].
  destruct (decide (length (hidden_layers a) < length (hidden_layers b))%nat).
  - pose proof (proj2 (Hw b (length (hidden_layers a))) ltac:(lia)) as Hin.
    rewrite <-Hdom in Hin. apply Hw in Hin. lia.
  - pose proof (proj2 (Hw a (length (hidden_layers b))) ltac:(lia)) as Hin.
    rewrite Hdom in Hin. apply Hw in Hin. lia.
Qed.

Lemma load_param_succeeds sd key p t :
  sd !! key = Some t -> shape t = shape (data p) ->
  load_param sd key p = Ok (mkParam t (grad p)).
Proof. intros Hk Hs. unfold load_param. rewrite Hk. by rewrite decide_True. Qed.

Lemma load_hidden_succeeds sd ls : forall k,
  (forall j l, ls !! j = Some l ->
     exists tw tb,
       sd !! hidden_key (k + j) "weight" = Some tw /\
       shape tw = shape (data (weight l)) /\
       sd !! hidden_key (k + j) "bias" = Some tb /\
       shape tb = shape (data (bias l))) ->
  exists ls', load_hidden sd k ls = Ok ls'.
Proof.
  induction ls as [|l ls IH]; intros k Hls; simpl; [by eexists|].
  destruct (Hls 0%nat l eq_refl) as (tw & tb & Hw & Hsw & Hb & Hsb).
  rewrite Nat.add_0_r in Hw, Hb.
  unfold load_linear.
  rewrite (load_param_succeeds _ _ _ _ Hw Hsw), (load_param_succeeds _ _ _ _ Hb Hsb).
  simpl.
  destruct (IH (S k)) as (ls' & ->); [|by eexists].
  intros j l' Hj. specialize (Hls (S j) l' Hj).
  by replace (S k + j)%nat with (k + S j)%nat by lia.
Qed.

Lemma load_state_dict_succeeds fresh m :
  same_architecture m fresh ->
  exists fresh', load_state_dict fresh (state_dict m) = Ok fresh'.
Proof.
  intros (_ & Hdom & Hshape). unfold load_state_dict.
  rewrite decide_True by done.
  assert (Hkey : forall key t', state_dict fresh !! key = Some t' ->
            exists t, state_dict m !! key = Some t /\ shape t = shape t').
  { intros key t' Hk.
    assert (is_Some (state_dict m !! key)) as [t Ht].
    { apply elem_of_dom. rewrite Hdom. apply elem_of_dom. eauto. }
    exists t. split; [done|]. by eapply Hshape. }
  destruct (load_hidden_succeeds (state_dict m) (hidden_layers fresh) 0)
    as (hl & ->).
  { intros j l Hj. simpl.
    destruct (Hkey (hidden_key j "weight") (data (weight l))) as (tw & Hw & Hsw).
    { by rewrite state_dict_lookup_weight, Hj. }
    destruct (Hkey (hidden_key j "bias") (data (bias l))) as (tb & Hb & Hsb).
    { by rewrite state_dict_lookup_bias, Hj. }
    by exists tw, tb. }
  destruct (Hkey (output_key "weight") _ (state_dict_lookup_output_weight fresh))
    as (tw & Hw & Hsw).
  destruct (Hkey (output_key "bias") _ (state_dict_lookup_output_bias fresh))
    as (tb & Hb & Hsb).
  simpl. unfold load_linear.
  rewrite (load_param_succeeds _ _ _ _ Hw Hsw), (load_param_succeeds _ _ _ _ Hb Hsb).
  simpl. by eexists.
Qed.

Lemma predict_on_batch_ext a b batch w :
  input_size a = input_size b ->
  state_dict a = state_dict b ->
  predict_on_batch a batch w = predict_on_batch b batch w.
Proof.
  intros Hi Hsd. unfold predict_on_batch, call_module. destruct batch as [images labels].
  by rewrite (forward_ext a b images Hi Hsd).
Qed.

(** C8. Round trip of the model state: the state of a model instance [m],
    taken with [get_state_dict] and loaded with [set_state_dict] into a
    freshly constructed instance of the same architecture, is accepted,
    and the instance then predicts on every batch exactly what [m]
    predicts (its state is the state of [m]). *)
Theorem state_dict_round_trip m fresh :
  same_architecture m fresh ->
  optimizer_wf m ->
  exists fresh',
    set_state_dict fresh (get_state_dict m) = Ok fresh' /\
    get_state_dict fresh' = get_state_dict m /\
    forall batch w,
      predict_on_batch fresh' batch w = predict_on_batch m batch w.
Proof.
  intros Harch Hopt.
  destruct (load_state_dict_succeeds fresh m Harch) as (fresh1 & Hload).
  destruct Harch as (Hin & Hdom & _).
  pose proof (load_state_dict_Ok _ _ _ Hload) as (Hsd1 & Hin1 & _ & _ & Hlen1).
  assert (Hset : exists fresh',
            set_state_dict fresh (get_state_dict m) = Ok fresh').
  { unfold set_state_dict. simpl. rewrite Hload. simpl.
    unfold opt_load_state_dict. rewrite decide_True; [by eexists|].
    rewrite Hopt, !parameters_length, Hlen1. f_equal. f_equal.
    by apply state_dict_dom_length. }
  destruct Hset as (fresh' & Hset). exists fresh'. split; [done|].
  apply set_state_dict_Ok in Hset as [Hst Hin'].
  split; [done|]. intros batch w. apply predict_on_batch_ext.
  - congruence.
  - by apply (f_equal sd_model) in Hst.
Qed.

(** * Two configurations that differ in the learning rate *)

Lemma rel_ret {A} R (a : A) : rel R (ret a) (ret a).
Proof. by intros w1 w2 HR. Qed.

Lemma rel_raise {A} R e : rel R (@raise T A e) (raise e).
Proof. by intros w1 w2 HR. Qed.

Lemma rel_lift {A} R (r : Result A) : rel R (lift r) (lift r).
Proof. by intros w1 w2 HR. Qed.

Lemma rel_bind {A B} R (m1 m2 : M A) (k1 k2 : A -> M B) :
  rel R m1 m2 -> (forall a, rel R (k1 a) (k2 a)) ->
  rel R (bind m1 k1) (bind m2 k2).
Proof.
  intros Hm Hk w1 w2 HR. unfold bind. destruct (Hm w1 w2 HR) as [Hr HR'].
  destruct (m1 w1) as [[a1|e1] w1'], (m2 w2) as [[a2|e2] w2'];
    simpl in *; simplify_eq; [by apply Hk|done].
Qed.

Lemma rel_modify R f1 f2 :
  (forall w1 w2, R w1 w2 -> R (f1 w1) (f2 w2)) -> rel R (modify f1) (modify f2).
Proof. intros Hf w1 w2 HR. split; [done|by apply Hf]. Qed.

Lemma rel_gets {A} R (f1 f2 : World -> A) :
  (forall w1 w2, R w1 w2 -> f1 w1 = f2 w2) -> rel R (gets f1) (gets f2).
Proof. intros Hf w1 w2 HR. simpl. split; [f_equal; by apply Hf|done]. Qed.

Create HintDb rel discriminated.

Ltac rel_tac :=
  repeat match goal with
    | |- rel _ (bind _ _) (bind _ _) => apply rel_bind; [ | intros ]
    | |- rel _ (ret _) (ret _) => apply rel_ret
    | |- rel _ (raise _) (raise _) => apply rel_raise
    | |- rel _ (lift _) (lift _) => apply rel_lift
    | |- rel _ (let '(_, _) := ?x in _) (let '(_, _) := ?x in _) => destruct x
    | |- rel _ (match ?x with _ => _ end) (match ?x with _ => _ end) => destruct x
    | |- rel _ (if ?b then _ else _) (if ?b then _ else _) => destruct b
    | |- rel _ _ _ => solve [ eauto with rel ]
    end.

(** *** Code that only talks to the framework *)

Lemma rel_machine_log_call o : rel same_machine (log_call o) (log_call o).
Proof.
  apply rel_modify. intros w1 w2 (Hr & Hg & Hc). repeat split; simpl; congruence.
Qed.

Lemma rel_machine_print l1 l2 : rel same_machine (print l1) (print l2).
Proof. apply rel_modify. by intros w1 w2 (Hr & Hg & Hc). Qed.

Lemma rel_machine_grad : rel same_machine (gets grad_enabled) (gets grad_enabled).
Proof. apply rel_gets. by intros w1 w2 (Hr & Hg & Hc). Qed.

Lemma rel_machine_py_iter o : rel same_machine (py_iter o) (py_iter o).
Proof.
  intros w1 w2 (Hr & Hg & Hc). destruct o as [l|]; simpl; [|done].
  rewrite Hr. by destruct (loader_iter l (rng w2)).
Qed.

Lemma rel_machine_Linear_new i o : rel same_machine (Linear_new i o) (Linear_new i o).
Proof.
  intros w1 w2 (Hr & Hg & Hc). unfold Linear_new. rewrite Hr.
  by destruct (Linear_init i o (rng w2)) as [[wt b] g].
Qed.

#[local] Hint Resolve rel_machine_log_call rel_machine_print rel_machine_grad
  rel_machine_py_iter rel_machine_Linear_new : rel.

Lemma rel_machine_getitem d k : rel same_machine (getitem d k) (getitem d k).
Proof. unfold getitem. rel_tac. Qed.

Lemma rel_machine_attr {A} (o : option A) : rel same_machine (attr o) (attr o).
Proof. unfold attr. rel_tac. Qed.

Lemma rel_machine_py_len o : rel same_machine (py_len o) (py_len o).
Proof. unfold py_len. rel_tac. Qed.

Lemma rel_machine_py_mod a b : rel same_machine (py_mod a b) (py_mod a b).
Proof. unfold py_mod. rel_tac. Qed.

Lemma rel_machine_py_truediv x n : rel same_machine (py_truediv x n) (py_truediv x n).
Proof. unfold py_truediv. rel_tac. Qed.

Lemma rel_machine_eq_sum a b : rel same_machine (eq_sum a b) (eq_sum a b).
Proof. unfold eq_sum. rel_tac. Qed.

Lemma rel_machine_py_range a b : rel same_machine (py_range a b) (py_range a b).
Proof. unfold py_range. rel_tac. Qed.

#[local] Hint Resolve rel_machine_getitem rel_machine_attr rel_machine_py_len
  rel_machine_py_mod rel_machine_py_truediv rel_machine_eq_sum
  rel_machine_py_range : rel.

Lemma rel_machine_call_module self x :
  rel same_machine (call_module self x) (call_module self x).
Proof. unfold call_module. rel_tac. Qed.

Lemma rel_machine_log_softmax x : rel same_machine (log_softmax x) (log_softmax x).
Proof. unfold log_softmax. rel_tac. Qed.

Lemma rel_machine_nll_loss p l r : rel same_machine (nll_loss p l r) (nll_loss p l r).
Proof. unfold nll_loss. rel_tac. Qed.

Lemma rel_machine_zero_grad self : rel same_machine (zero_grad self) (zero_grad self).
Proof. unfold zero_grad. rel_tac. Qed.

Lemma rel_machine_backward l self : rel same_machine (backward l self) (backward l self).
Proof. unfold backward. rel_tac. Qed.

Lemma rel_machine_opt_step self : rel same_machine (opt_step self) (opt_step self).
Proof. unfold opt_step. rel_tac. Qed.

#[local] Hint Resolve rel_machine_call_module rel_machine_log_softmax
  rel_machine_nll_loss rel_machine_zero_grad rel_machine_backward
  rel_machine_opt_step : rel.

Lemma rel_machine_train_on_batch self b :
  rel same_machine (train_on_batch self b) (train_on_batch self b).
Proof. unfold train_on_batch. rel_tac. Qed.

Lemma rel_machine_predict_on_batch self b :
  rel same_machine (predict_on_batch self b) (predict_on_batch self b).
Proof. unfold predict_on_batch. rel_tac. Qed.

#[local] Hint Resolve rel_machine_train_on_batch
  rel_machine_predict_on_batch : rel.

Lemma get_model_optimizer name w m w' :
  get_model name w = (Ok (Some m), w') -> param_group (opt m) = sgd_1e_3.
Proof.
  unfold get_model. destruct (py_eq_str name "mlp"); [|done].
  unfold bind. destruct (MLP_init_run 784 10 w) as (m0 & w0 & Hrun & _).
  rewrite Hrun. intros [= <- _].
  revert Hrun. unfold MLP_init, bind, Linear_new.
  destruct (Linear_init 784 256 (rng w)) as [[wt1 b1] g1]. simpl.
  destruct (Linear_init 256 10 g1) as [[wt2 b2] g2]. simpl.
  by intros [= <- _].
Qed.

(** ** Runs and their two components *)

Lemma run_eta {A} (m : M A) w : m w = ((m w).1, (m w).2).
Proof. by destruct (m w). Qed.

Lemma run_Ok_eta {A} (m : M A) w a : (m w).1 = Ok a -> m w = (Ok a, (m w).2).
Proof. destruct (m w) as [r w']. simpl. by intros ->. Qed.

Lemma Some_pair_eta {A B} (o : option (A * B)) a d :
  fst <$> o = Some a -> o = Some (a, default d (snd <$> o)).
Proof. destruct o as [[a' b]|]; simpl; [by intros [= ->]|done]. Qed.

(** * Further properties of the passes *)

(** ** Passes over an empty loader *)

(** X4.  On a loader without batches both passes raise
    [ZeroDivisionError], at the division that closes the pass
    ([loss_sum / n_batches], [se / n_samples]): no framework call has been
    made and nothing has been printed. *)
Theorem empty_loader_division self loader w :
  loader_len loader = 0 ->
  (exists w',
     train_on_loader self (Some loader) w = (Raise ZeroDivisionError, w') /\
     calls w' = calls w /\ stdout w' = stdout w) /\
  (exists w',
     val_on_loader self (Some loader) w = (Raise ZeroDivisionError, w') /\
     calls w' = calls w /\ stdout w' = stdout w /\
     grad_enabled w' = grad_enabled w).
Proof.
  intros Hn.
  assert (Hnil : forall g, (loader_iter loader g).1 = []).
  { intros g. pose proof (loader_iter_len loader g) as Hlen.
    rewrite Hn in Hlen. destruct (loader_iter loader g).1; [done|].
    simpl in Hlen. lia. }
  split.
  - unfold train_on_loader, bind, py_len, py_iter, ret. rewrite Hn.
    pose proof (Hnil (rng w)) as Hb.
    destruct (loader_iter loader (rng w)) as [bs g]. simpl in Hb. subst bs.
    simpl. by eexists.
  - unfold val_on_loader, no_grad, bind, py_len, py_iter, ret. simpl.
    pose proof (Hnil (rng w)) as Hb.
    destruct (loader_iter loader (rng w)) as [bs g]. simpl in Hb. subst bs.
    simpl. by eexists.
Qed.

(** ** Validation never trains *)

#[local] Instance only_predicts_preorder : PreOrder only_predicts.
Proof.
  split; [intros w; repeat split; intros _; exists []; by rewrite app_nil_r|].
  intros w1 w2 w3 (Hg1 & Hf1 & Hc1) (Hg2 & Hf2 & Hc2).
  split_and!; [congruence..|]. intros Hoff.
  destruct (Hc1 Hoff) as (new1 & Hn1 & HF1).
  destruct (Hc2 ltac:(congruence)) as (new2 & Hn2 & HF2).
  exists (new1 ++ new2). split; [|by apply Forall_app].
  by rewrite Hn2, Hn1, (assoc_L (++)).
Qed.

Lemma only_predicts_log_call o :
  o ∈ predict_ops -> keeps only_predicts (log_call o).
Proof.
  intros Ho w. split_and!; [done..|]. intros Hoff. simpl.
  exists [mkCall o (grad_enabled w)]. split; [done|].
  apply Forall_singleton. split; [exact Hoff|exact Ho].
Qed.

Lemma only_predicts_print l : keeps only_predicts (print l).
Proof.
  intros w. split_and!; [done..|]. intros _. exists [].
  by rewrite app_nil_r.
Qed.

Lemma only_predicts_py_iter o : keeps only_predicts (py_iter o).
Proof.
  intros w. destruct o as [l|]; simpl; [|reflexivity].
  destruct (loader_iter l (rng w)) as [bs g]. simpl.
  split_and!; [done..|]. intros _. exists []. by rewrite app_nil_r.
Qed.

Ltac predicts_tac :=
  repeat match goal with
    | |- keeps _ (bind _ _) => apply keeps_bind; [apply _| |intros]
    | |- keeps _ (ret _) => apply keeps_ret; apply _
    | |- keeps _ (raise _) => apply keeps_raise; apply _
    | |- keeps _ (print _) => apply only_predicts_print
    | |- keeps _ (py_iter _) => apply only_predicts_py_iter
    | |- keeps _ (log_call _) =>
        apply only_predicts_log_call; unfold predict_ops; set_solver
    | |- keeps _ (let '(_, _) := ?x in _) => destruct x
    | |- keeps _ (match ?x with _ => _ end) => destruct x
    | |- keeps _ (if ?b then _ else _) => destruct b
    | |- keeps _ _ => apply keeps_reads; [apply _|solve [eauto with reads]]
    end.

Lemma only_predicts_predict_on_batch self batch :
  keeps only_predicts (predict_on_batch self batch).
Proof.
  unfold predict_on_batch, call_module, log_softmax. predicts_tac.
Qed.

Lemma only_predicts_val_loop batches : forall self n se ns i,
  keeps only_predicts (val_loop self n se ns i batches).
Proof.
  induction batches as [|b bs IH]; intros self n se ns i; simpl.
  { apply keeps_ret, _. }
  apply keeps_bind; [apply _|apply only_predicts_predict_on_batch|].
  intros pred. predicts_tac. apply IH.
Qed.

(** X5.  A validation pass never trains.  Whatever the loader and the
    outcome, every framework call [val_on_loader] makes is a forward
    pass, a log-softmax or an argmax made with gradient tracking off (no
    gradient is zeroed or computed, no optimizer step is taken); the
    tracking mode is afterwards what it was before, and no file has
    changed. *)
Theorem val_on_loader_only_predicts self loader w :
  grad_enabled (val_on_loader self loader w).2 = grad_enabled w /\
  fs (val_on_loader self loader w).2 = fs w /\
  exists new,
    calls (val_on_loader self loader w).2 = calls w ++ new /\
    Forall inference_call new.
Proof.
  unfold val_on_loader, no_grad.
  match goal with
  | |- context [?m (set_grad_enabled false w)] =>
      assert (Hm : keeps only_predicts m)
  end.
  { predicts_tac. apply only_predicts_val_loop. }
  match goal with
  | |- context [?m (set_grad_enabled false w)] =>
      specialize (Hm (set_grad_enabled false w));
      destruct (m (set_grad_enabled false w)) as [r w']
  end.
  destruct Hm as (_ & Hf & Hc). simpl in *.
  destruct (Hc eq_refl) as (new & Hnew & HF).
  split_and!; [done..|]. by exists new.
Qed.

(** * Further properties of the model *)

(** ** Parameters under an in-place update *)

Lemma concat_imap_linear (f : nat -> Param -> Param) (hl : list Linear) :
  concat (linear_parameters <$>
            imap (fun k l => mkLinear (f (2 * k)%nat (weight l))
                                      (f (2 * k + 1)%nat (bias l))) hl)
  = imap f (concat (linear_parameters <$> hl)).
Proof.
  revert f. induction hl as [|l hl IH]; intros f; [done|].
  rewrite imap_cons, !fmap_cons. cbn [concat linear_parameters app].
  rewrite !imap_cons. simpl. f_equal. f_equal.
  rewrite <-(IH (f ∘ S ∘ S)). f_equal. f_equal.
  apply imap_ext. intros k x _. simpl. f_equal; f_equal; lia.
Qed.

Lemma parameters_imap_params f self :
  parameters (imap_params f self) = imap f (parameters self).
Proof.
  unfold parameters, module_parameters, imap_params. simpl.
  rewrite concat_imap_linear, imap_app. f_equal.
  assert (Hlen : length (concat (linear_parameters <$> hidden_layers self))
                 = (2 * length (hidden_layers self))%nat).
  { generalize (hidden_layers self). intros ls.
    induction ls as [|l ls IH]; [done|].
    rewrite fmap_cons. cbn [concat]. rewrite length_app, IH. simpl. lia. }
  rewrite Hlen. unfold linear_parameters. simpl.
  by rewrite !Nat.add_0_r.
Qed.

Lemma parameters_set_opt o self : parameters (set_opt o self) = parameters self.
Proof. done. Qed.

Lemma hidden_layers_imap_params f self :
  length (hidden_layers (imap_params f self)) = length (hidden_layers self).
Proof. unfold imap_params. simpl. by rewrite length_imap. Qed.

Lemma train_on_batch_Ok self batch w x self' w' :
  train_on_batch self batch w = (Ok (x, self'), w') ->
  train_step self batch = Some (x, self') /\ grad_enabled w = true.
Proof.
  unfold train_step, train_on_batch. destruct batch as [images labels].
  simpl. unfold zero_grad, call_module, log_softmax, nll_loss, backward, opt_step,
    log_call, bind, modify, ret, gets, raise. simpl.
  destruct (forward (zero_grads self) images) as [logits|]; [|done]. simpl.
  destruct (F_nll_loss RedMean (F_log_softmax logits) labels) as [loss|]; [|done].
  simpl. destruct (grad_enabled w); [|done]. by intros [= <- <- _].
Qed.

(** X9.  Gradients do not accumulate across batches.  After a training
    step that returns, the gradient stored in each parameter is the
    gradient of this batch's loss for that parameter, whatever gradients
    the model held before the step. *)
Theorem train_on_batch_gradients self batch w x self' w' :
  train_on_batch self batch w = (Ok (x, self'), w') ->
  exists gs,
    batch_gradients self batch = Some gs /\
    forall i p', parameters self' !! i = Some p' -> grad p' = gs !! i.
Proof.
  intros Hrun. apply train_on_batch_Ok in Hrun as [Hstep _].
  unfold train_step in Hstep. unfold batch_gradients.
  destruct (forward (zero_grads self) batch.1) as [logits|]; [|done].
  destruct (F_nll_loss RedMean (F_log_softmax logits) batch.2) as [loss|];
    [|done].
  injection Hstep as _ <-. eexists. split; [reflexivity|].
  intros i p'. unfold sgd_step.
  rewrite parameters_set_opt, parameters_imap_params, list_lookup_imap.
  unfold backprop. rewrite !parameters_imap_params, list_lookup_imap.
  unfold zero_grads. rewrite !parameters_imap_params, list_lookup_imap.
  destruct (parameters self !! i) as [p|]; [|done]. simpl.
  intros [= <-]. simpl.
  by destruct (autograd_grad loss _ !! i).
Qed.

Lemma dom_hidden_state_dict k ls ls' :
  length ls = length ls' ->
  dom (hidden_state_dict k ls) = dom (hidden_state_dict k ls').
Proof.
  revert k ls'. induction ls as [|l ls IH]; intros k [|l' ls'] Hlen;
    simplify_eq/=; [done|].
  rewrite !dom_insert_L. by rewrite (IH (S k) ls').
Qed.

Lemma dom_state_dict a b :
  length (hidden_layers a) = length (hidden_layers b) ->
  dom (state_dict a) = dom (state_dict b).
Proof.
  intros Hlen. unfold state_dict. rewrite !dom_insert_L.
  by rewrite (dom_hidden_state_dict 0 _ _ Hlen).
Qed.

(** X10.  A training step that returns keeps the architecture and the
    optimizer settings: the input size, the mode, the names under which
    the parameters are saved and the hyperparameters of the optimizer
    (the learning rate among them) are what they were, and the optimizer
    holds one momentum buffer per parameter. *)
Theorem train_on_batch_keeps_architecture self batch w x self' w' :
  train_on_batch self batch w = (Ok (x, self'), w') ->
  input_size self' = input_size self /\
  training self' = training self /\
  dom (state_dict self') = dom (state_dict self) /\
  length (parameters self') = length (parameters self) /\
  param_group (opt self') = param_group (opt self) /\
  optimizer_wf self'.
Proof.
  intros Hrun. apply train_on_batch_Ok in Hrun as [Hstep _].
  unfold train_step in Hstep.
  destruct (forward (zero_grads self) batch.1) as [logits|]; [|done].
  destruct (F_nll_loss RedMean (F_log_softmax logits) batch.2) as [loss|];
    [|done].
  injection Hstep as _ <-.
  assert (Hhl : length (hidden_layers
                          (sgd_step (backprop loss (zero_grads self))))
                = length (hidden_layers self)).
  { unfold sgd_step.
    change (hidden_layers (set_opt ?o ?m)) with (hidden_layers m).
    rewrite hidden_layers_imap_params. unfold backprop.
    rewrite hidden_layers_imap_params. unfold zero_grads.
    apply hidden_layers_imap_params. }
  split_and!; try done.
  - by apply dom_state_dict.
  - by rewrite !parameters_length, Hhl.
  - unfold optimizer_wf. rewrite parameters_length, Hhl.
    unfold sgd_step.
    change (momentum_buffers (opt (set_opt ?o ?m))) with (momentum_buffers o).
    cbn [momentum_buffers]. rewrite length_imap, parameters_length.
    unfold backprop. rewrite hidden_layers_imap_params. unfold zero_grads.
    by rewrite hidden_layers_imap_params.
Qed.

(** ** Counting the correct predictions *)

Lemma count_eq_le a b : 0 <= count_eq a b <= Z.of_nat (length a `min` length b).
Proof.
  unfold count_eq. split; [lia|].
  pose proof (length_filter (fun xy : Z * Z => xy.1 = xy.2) (zip a b)) as Hle.
  rewrite length_zip in Hle. lia.
Qed.

Lemma count_eq_all a : forall b,
  length a = length b ->
  count_eq a b = Z.of_nat (length b) <-> a = b.
Proof.
  unfold count_eq. induction a as [|x a IH]; intros [|y b] Hlen;
    simplify_eq/=; [done|].
  rewrite filter_cons. simpl. case_decide as Hxy.
  - subst y. simpl. specialize (IH b Hlen). split.
    + intros Hc. f_equal. apply IH. lia.
    + intros [= Hab]. apply IH in Hab. lia.
  - split; [|congruence]. intros Hc.
    pose proof (length_filter (fun xy : Z * Z => xy.1 = xy.2) (zip a b)) as Hle.
    rewrite length_zip in Hle. lia.
Qed.

(** X11.  The number of correct predictions of a batch,
    [(pred_labels == gt_labels).sum()], lies between 0 and the number of
    labels when there is one prediction per label, and it reaches the
    number of labels exactly when the predictions are the labels. *)
Theorem matches_bounds pred gt c :
  matches pred gt = Some c ->
  length pred = length gt ->
  0 <= c <= Z.of_nat (length gt) /\
  (c = Z.of_nat (length gt) <-> pred = gt).
Proof.
  intros Hm Hlen. unfold matches in Hm. rewrite decide_True in Hm by done.
  injection Hm as <-. split.
  - pose proof (count_eq_le pred gt). lia.
  - by apply count_eq_all.
Qed.

(** ** The keys of a state dictionary *)

Lemma size_hidden_state_dict k ls :
  size (hidden_state_dict k ls) = (2 * length ls)%nat.
Proof.
  revert k. induction ls as [|l ls IH]; intros k; simpl; [done|].
  rewrite map_size_insert_None.
  - rewrite map_size_insert_None.
    + rewrite IH. lia.
    + apply hidden_state_dict_lookup_lt. lia.
  - rewrite lookup_insert_ne
      by (intros Heq; by apply hidden_key_inj in Heq as [_ [=]]).
    apply hidden_state_dict_lookup_lt. lia.
Qed.

(** X12.  The names under which [state_dict] files the parameters never
    collide: the dictionary has exactly one entry per parameter of the
    model, whatever the number of hidden layers. *)
Theorem state_dict_one_key_per_parameter self :
  size (state_dict self) = length (parameters self).
Proof.
  rewrite parameters_length. unfold state_dict.
  rewrite map_size_insert_None.
  - rewrite map_size_insert_None.
    + rewrite size_hidden_state_dict. lia.
    + apply hidden_state_dict_lookup_output.
  - rewrite lookup_insert_ne by done. apply hidden_state_dict_lookup_output.
Qed.

(** ** Loading a state dictionary *)

Lemma load_linear_grad sd key l l' :
  load_linear sd key l = Ok l' ->
  grad <$> linear_parameters l' = grad <$> linear_parameters l.
Proof.
  unfold load_linear, rbind.
  destruct (load_param sd (key "weight") (weight l)) as [w|] eqn:Hw; [|done].
  destruct (load_param sd (key "bias") (bias l)) as [b|] eqn:Hb; [|done].
  intros [= <-]. unfold linear_parameters. simpl.
  apply load_param_Ok in Hw as [_ ->], Hb as [_ ->]. done.
Qed.

Lemma load_hidden_grad sd k ls ls' :
  load_hidden sd k ls = Ok ls' ->
  grad <$> concat (linear_parameters <$> ls')
  = grad <$> concat (linear_parameters <$> ls).
Proof.
  revert k ls'. induction ls as [|l ls IH]; intros k ls'; simpl.
  { by intros [= <-]. }
  unfold rbind.
  destruct (load_linear sd (hidden_key k) l) as [l'|] eqn:Hl; [|done].
  destruct (load_hidden sd (S k) ls) as [rest|] eqn:Hrest; [|done].
  intros [= <-]. rewrite !fmap_cons. cbn [concat]. rewrite !fmap_app.
  by rewrite (load_linear_grad _ _ _ _ Hl), (IH _ _ Hrest).
Qed.

Lemma load_state_dict_grad self sd m :
  load_state_dict self sd = Ok m ->
  grad <$> parameters m = grad <$> parameters self.
Proof.
  unfold load_state_dict, rbind. case_decide as Hdom; [|done].
  destruct (load_hidden sd 0 (hidden_layers self)) as [hl|] eqn:Hhl; [|done].
  destruct (load_linear sd output_key (output_layer self)) as [ol|] eqn:Hol;
    [|done].
  intros [= <-]. unfold parameters, module_parameters. simpl.
  rewrite !fmap_app.
  by rewrite (load_hidden_grad _ _ _ _ Hhl), (load_linear_grad _ _ _ _ Hol).
Qed.

(** X13.  What [set_state_dict] accepts, [get_state_dict] gives back: a
    state that is loaded without an error is, key by key and with the
    optimizer state, the state of the model afterwards; its parameter
    names are exactly those of the model; and the load changes neither
    the input size, nor the mode, nor the stored gradients. *)
Theorem set_state_dict_accepted self st m :
  set_state_dict self st = Ok m ->
  get_state_dict m = st /\
  dom (sd_model st) = dom (state_dict self) /\
  input_size m = input_size self /\
  training m = training self /\
  grad <$> parameters m = grad <$> parameters self.
Proof.
  intros Hset. pose proof (set_state_dict_Ok _ _ _ Hset) as [Hget Hin].
  unfold set_state_dict, rbind in Hset.
  destruct (load_state_dict self (sd_model st)) as [m1|] eqn:Hload; [|done].
  unfold opt_load_state_dict in Hset. case_decide; [|done].
  injection Hset as <-.
  pose proof (load_state_dict_grad _ _ _ Hload) as Hgrad.
  apply load_state_dict_Ok in Hload as (Hsd & _ & _ & Htr & Hlen).
  split_and!; [done| |done|done|done].
  rewrite <-Hsd. by apply dom_state_dict.
Qed.

(** ** How many progress lines a pass prints *)

Lemma count_multiples_step k n :
  0 < k -> 0 <= n ->
  (n + 1 + k - 1) / k
  = (n + k - 1) / k + (if decide (n mod k = 0) then 1 else 0).
Proof.
  intros Hk Hn. case_decide as Hr.
  - apply Z.mod_divide in Hr as [q ->]; [|lia].
    replace (q * k + 1 + k - 1) with ((q + 1) * k) by lia.
    rewrite Z.div_mul by lia.
    replace (q * k + k - 1) with (q * k + (k - 1)) by lia.
    rewrite Z.div_add_l by lia. rewrite (Z.div_small (k - 1)) by lia. lia.
  - pose proof (Z.div_mod n k ltac:(lia)) as Hdm.
    pose proof (Z.mod_pos_bound n k Hk) as Hb.
    set (q := n / k) in *. set (r := n mod k) in *.
    replace (n + 1 + k - 1) with ((q + 1) * k + r) by lia.
    rewrite Z.div_add_l by lia. rewrite (Z.div_small r) by lia.
    replace (n + k - 1) with ((q + 1) * k + (r - 1)) by lia.
    rewrite Z.div_add_l by lia. rewrite (Z.div_small (r - 1)) by lia. lia.
Qed.

Lemma count_multiples k (n : nat) :
  0 < k ->
  Z.of_nat (length (filter (fun j => j mod k = 0) (seqZ 0 (Z.of_nat n))))
  = (Z.of_nat n + k - 1) / k.
Proof.
  intros Hk. induction n as [|n IH].
  { simpl. symmetry. apply Z.div_small. lia. }
  replace (Z.of_nat (S n)) with (Z.of_nat n + 1) by lia.
  rewrite seqZ_app by lia. rewrite filter_app, length_app.
  rewrite Nat2Z.inj_add, IH, count_multiples_step by lia.
  f_equal. rewrite Z.add_0_l.
  change (seqZ (Z.of_nat n) 1) with [Z.of_nat n].
  rewrite filter_cons, filter_nil. by case_decide.
Qed.

Lemma progress_indices_length n :
  10 <= n ->
  10 <= Z.of_nat (length (progress_indices n)) <= 19 /\
  (n mod 10 = 0 -> Z.of_nat (length (progress_indices n)) = 10).
Proof.
  intros Hn. unfold progress_indices.
  assert (Hk : 0 < n / 10) by (apply Z.div_str_pos; lia).
  assert (Hc : Z.of_nat (length (filter (fun j => j mod (n / 10) = 0) (seqZ 0 n)))
               = (n + n / 10 - 1) / (n / 10)).
  { rewrite <-(Z2Nat.id n) at 1 by lia.
    rewrite count_multiples by done. by rewrite Z2Nat.id by lia. }
  rewrite !Hc. clear Hc.
  pose proof (Z.div_mod n 10 ltac:(lia)) as Hdm.
  pose proof (Z.mod_pos_bound n 10 ltac:(lia)) as Hb.
  set (k := n / 10) in *. set (r := n mod 10) in *.
  replace (n + k - 1) with (10 * k + (r + k - 1)) by lia.
  rewrite Z.div_add_l by lia.
  assert (0 <= (r + k - 1) / k <= 9).
  { split; [apply Z.div_pos; lia|].
    apply Z.lt_succ_r, Z.div_lt_upper_bound; nia. }
  split; [lia|]. intros Hr. rewrite Hr. rewrite Z.div_small; lia.
Qed.

Lemma train_on_batch_stdout self batch w :
  stdout (train_on_batch self batch w).2 = stdout w.
Proof.
  unfold train_on_batch, zero_grad, call_module, log_softmax, nll_loss,
    backward, opt_step, log_call, bind, modify, ret, gets, raise.
  destruct batch as [images labels]. simpl.
  destruct (forward (zero_grads self) images) as [logits|]; [|done]. simpl.
  destruct (F_nll_loss RedMean (F_log_softmax logits) labels) as [loss|];
    [|done].
  simpl. by destruct (grad_enabled w).
Qed.

Lemma train_loop_progress batches : forall self n x i w r w',
  n / 10 <> 0 ->
  train_loop self n x i batches w = (Ok r, w') ->
  exists out,
    stdout w' = stdout w ++ out /\
    length out
    = length (filter (fun j => j mod (n / 10) = 0)
                     (seqZ i (Z.of_nat (length batches)))).
Proof.
  induction batches as [|b bs IH]; intros self n x i w r w' Hk.
  { simpl. intros [= _ <-]. exists []. by rewrite app_nil_r. }
  cbn [train_loop]. unfold bind at 1.
  pose proof (train_on_batch_stdout self b w) as Hout.
  destruct (train_on_batch self b w) as [[[loss self1]|e] w1]; [|done].
  simpl in Hout. unfold py_mod. rewrite (proj2 (Z.eqb_neq _ _) Hk).
  rewrite (bind_ok (ret (i mod (n / 10))) _ w1 _ w1 eq_refl).
  replace (Z.of_nat (length (b :: bs)))
    with (Z.succ (Z.of_nat (length bs))) by (simpl; lia).
  rewrite seqZ_cons by lia. rewrite Z.pred_succ, filter_cons.
  destruct (Z.eqb_spec (i mod (n / 10)) 0) as [Hi|Hi].
  - rewrite decide_True by done. unfold py_truediv.
    destruct (i + 1 =? 0); [done|].
    unfold bind at 1 2. simpl. intros Hrun.
    apply IH in Hrun as (out & Ho & Hlen); [|done].
    exists (PTrainLoss i (fdiv (fadd x loss) (float_of_int (i + 1))) :: out).
    simpl in Ho. rewrite Ho, Hout, <-(assoc_L (++)). simpl.
    split; [done|]. by rewrite Hlen.
  - rewrite decide_False by done.
    rewrite (bind_ok (ret tt) _ w1 tt w1 eq_refl). intros Hrun.
    apply IH in Hrun as (out & Ho & Hlen); [|done].
    exists out. by rewrite Ho, Hout.
Qed.

(** X17.  How often a training pass reports: on a loader of at least ten
    batches, a pass of [train_on_loader] that returns has printed
    between 10 and 19 progress lines, and exactly 10 when the number of
    batches is a multiple of ten. *)
Theorem train_on_loader_progress_lines self loader w r w' :
  10 <= loader_len loader ->
  train_on_loader self (Some loader) w = (Ok r, w') ->
  exists out,
    stdout w' = stdout w ++ out /\
    10 <= Z.of_nat (length out) <= 19 /\
    (loader_len loader mod 10 = 0 -> Z.of_nat (length out) = 10).
Proof.
  intros Hn. pose proof (loader_iter_len loader (rng w)) as Hlen.
  unfold train_on_loader, py_len.
  rewrite (bind_ok (ret (loader_len loader)) _ w _ w eq_refl).
  unfold py_iter. unfold bind at 1.
  destruct (loader_iter loader (rng w)) as [batches g]. simpl in Hlen.
  unfold bind at 1.
  destruct (train_loop (set_training true self) (loader_len loader) fzero 0
              batches (set_rng g w)) as [[[loss_sum self1]|e] w1] eqn:Hloop;
    [|done].
  apply train_loop_progress in Hloop as (out & Ho & Hout);
    [|apply tenth_nonzero; lia].
  assert (Hlen' : Z.of_nat (length (batches : list Batch)) = loader_len loader)
    by exact Hlen.
  rewrite Hlen' in Hout. fold (progress_indices (loader_len loader)) in Hout.
  unfold py_truediv. destruct (loader_len loader =? 0); [done|].
  simpl. intros [= _ <-]. exists out. simpl in Ho. split; [done|].
  rewrite Hout. by apply progress_indices_length.
Qed.

(** * Runs of [trainval]

    The module binds neither [datasets] nor [models], so a run gets as
    far as the first loader call: it honours [reset], saves the
    configuration, prints two lines and raises [NameError]. *)

Lemma load_global_unbound name :
  name ∉ module_globals -> load_global name = raise NameError.
Proof. intros Hn. unfold load_global. by rewrite bool_decide_eq_false_2. Qed.

Lemma datasets_unbound : "datasets" ∉ module_globals.
Proof. apply (bool_decide_unpack _). by vm_compute. Qed.

Lemma trainval_run exp_dict savedir_base reset w :
  let savedir := path_join savedir_base (hash_dict exp_dict) in
  trainval exp_dict savedir_base reset w
  = (Raise NameError,
     prologue_world exp_dict savedir (after_reset reset savedir w)).
Proof.
  intros savedir. unfold trainval. fold savedir.
  rewrite (bind_ok _ _ _ _ _ (reset_run reset savedir w)).
  unfold makedirs, save_json, print.
  rewrite (bind_ok (ret tt) _ _ tt _ eq_refl).
  do 3 (unfold bind at 1, modify at 1).
  rewrite (load_global_unbound _ datasets_unbound).
  by rewrite (bind_raise (raise NameError) _ _ NameError _ eq_refl).
Qed.

Lemma prologue_world_stdout e d w :
  stdout (prologue_world e d w) = stdout w ++ [PExpDict e; PSavedIn d].
Proof. simpl. by rewrite <-(assoc_L (++)). Qed.

Lemma prologue_world_config e d w :
  fs (prologue_world e d w) !! path_join d "exp_dict.json" = Some (FJson e).
Proof. simpl. apply lookup_insert_eq. Qed.

Lemma prologue_world_machine e d reset w :
  same_machine (prologue_world e d (after_reset reset d w)) w.
Proof. by destruct reset. Qed.

(** C1. Resume idempotence: when the saved score history already ends at
    epoch [max_epoch - 1], running [trainval] again on the same
    configuration and directory with [reset] false performs no epoch (no
    framework call, no epoch line printed, the model-state file as it
    was) and leaves the persisted score history unchanged.  The run ends
    with the [NameError] of every run. *)
Theorem trainval_resume_idempotent exp_dict savedir_base w l r n res w' :
  let savedir := path_join savedir_base (hash_dict exp_dict) in
  history w savedir = Some l ->
  last l = Some r ->
  exp_dict !! "max_epoch" = Some (VInt n) ->
  epoch r = n - 1 ->
  trainval exp_dict savedir_base false w = (res, w') ->
  res = Raise NameError /\
  history w' savedir = Some l /\
  calls w' = calls w /\
  fs w' !! path_join savedir "model.pth" = fs w !! path_join savedir "model.pth" /\
  exists out, stdout w' = stdout w ++ out /\
              Forall (fun l => epoch_line l = false) out.
Proof.
  intros savedir Hh Hlast Hmax Hr Hrun.
  rewrite trainval_run in Hrun. fold savedir in Hrun.
  injection Hrun as <- <-. split_and!.
  - done.
  - unfold history. by rewrite prologue_world_score.
  - done.
  - by rewrite prologue_world_score.
  - eexists. split; [apply prologue_world_stdout|].
    by repeat constructor.
Qed.


(** C5 (amended). Unsupported names: for every dataset name other than
    ['mnist'], [get_loader] raises no error and returns [None], and for
    every model name other than ['mlp'], [get_model] raises no error and
    returns [None]; neither call executes a training step or changes
    anything else. *)
Theorem unsupported_names :
  (forall dn datadir split bs w,
     dn <> VStr "mnist" -> get_loader dn datadir split bs w = (Ok None, w)) /\
  (forall mn w, mn <> VStr "mlp" -> get_model mn w = (Ok None, w)).
Proof.
  split.
  - intros. by apply get_loader_unknown.
  - intros. by apply get_model_unknown.
Qed.


(** * Further properties of the runs *)

(** X1.  A run of [trainval] with [reset] false changes no file but the
    configuration file of its own checkpoint directory, and leaves the
    backup and the dataset files as they were. *)
Theorem trainval_writes_only_its_files exp_dict savedir_base w :
  same_files_but
    (fun p => p = path_join (path_join savedir_base (hash_dict exp_dict))
                            "exp_dict.json")
    w (trainval exp_dict savedir_base false w).2.
Proof.
  rewrite trainval_run. split; [|done]. intros p Hp. simpl.
  by apply lookup_insert_ne.
Qed.




Lemma history_Some w savedir l :
  history w savedir = Some l ->
  fs w !! path_join savedir "score_list.pkl" = Some (FPkl l).
Proof.
  unfold history.
  destruct (fs w !! path_join savedir "score_list.pkl") as [[]|]; congruence.
Qed.


End Logic.

(** * The program on the small framework

    The theorems above, applied to the program on [Mini]: runs of
    [trainval] on the configuration [{dataset: mnist, model: mlp,
    max_epoch: 1, batch_size: 2}], from the empty machine and from
    directories that hold a checkpoint, and passes of the model over
    small loaders. *)

#[local] Existing Instances Mini.torch Mini.haven.

Lemma trainval_resume_idempotent_witness :
  (trainval (Mini.config 1 2) Mini.base false Mini.world_done).1
  = Raise NameError /\
  history (trainval (Mini.config 1 2) Mini.base false Mini.world_done).2
          Mini.savedir = Some [Mini.score1] /\
  calls (trainval (Mini.config 1 2) Mini.base false Mini.world_done).2
  = calls Mini.world_done.
Proof.
  destruct (trainval_resume_idempotent (Mini.config 1 2) Mini.base
              Mini.world_done [Mini.score1] Mini.score1 1
              (trainval (Mini.config 1 2) Mini.base false Mini.world_done).1
              (trainval (Mini.config 1 2) Mini.base false Mini.world_done).2)
    as (Hres & Hh & Hc & _).
  - vm_compute; reflexivity.
  - reflexivity.
  - vm_compute; reflexivity.
  - reflexivity.
  - apply run_eta.
  - split_and!; [exact Hres|exact Hh|exact Hc].
Defined.

(** C2.  Resuming does not happen.  On a directory that holds a model
    state and a history of one record (epoch 0), for a configuration with
    [max_epoch] 2, a run of [trainval] with [reset] false raises
    [NameError] before it reaches the checkpoint branch: it loads no
    model state, prints no ['Starting experiment at epoch'] line, makes
    no framework call and leaves the history at its one record, where
    the claim has it restore the model and run epoch 1. *)
Theorem trainval_resume :
  history Mini.world_half Mini.savedir2 = Some [Mini.score1] /\
  Mini.config 2 2 !! "max_epoch" = Some (VInt 2) /\
  exists w',
    trainval (Mini.config 2 2) Mini.base false Mini.world_half
    = (Raise NameError, w') /\
    stdout w' = [PExpDict (Mini.config 2 2); PSavedIn Mini.savedir2] /\
    calls w' = [] /\
    history w' Mini.savedir2 = Some [Mini.score1].
Proof.
  split; [vm_compute; reflexivity|]. split; [vm_compute; reflexivity|].
  eexists. split; [apply trainval_run|]. split_and!; [done..|].
  unfold history. rewrite prologue_world_score by done.
  vm_compute; reflexivity.
Qed.



Lemma unsupported_names_witness :
  get_loader (VStr "cifar10") Mini.base "train" (VInt 2) Mini.world0
  = (Ok None, Mini.world0) /\
  get_model (VStr "cnn") Mini.world0 = (Ok None, Mini.world0).
Proof.
  destruct unsupported_names as (Hloader & Hmodel).
  split; [by apply Hloader|by apply Hmodel].
Defined.

Lemma progress_print_modulus_witness :
  (exists w',
     train_on_loader (Mini.model 1 0) (Some Mini.loader5) Mini.world0
     = (Raise ZeroDivisionError, w') /\
     stdout w' = stdout Mini.world0) /\
  (exists w',
     val_on_loader (Mini.model 1 0) (Some Mini.loader5) Mini.world0
     = (Raise ZeroDivisionError, w') /\
     stdout w' = stdout Mini.world0) /\
  (exists r w',
     train_on_loader (Mini.model 1 0) (Some Mini.loader10) Mini.world0
     = (Ok r, w') /\
     stdout w' = stdout Mini.world0 ++
       ((fun i => PTrainLoss i (running_mean (replicate 10 fzero) i)) <$>
          progress_indices (loader_len Mini.loader10))) /\
  (exists r w',
     val_on_loader (Mini.model 1 0) (Some Mini.loader10) Mini.world0
     = (Ok r, w') /\
     stdout w' = stdout Mini.world0 ++
       ((fun i => PValScore i
                    (running_score (replicate 10 2)
                       (batch_size_of <$> (loader_iter Mini.loader10
                                             (rng Mini.world0)).1) i)) <$>
          progress_indices (loader_len Mini.loader10))).
Proof.
  destruct progress_print_modulus as (Htrain5 & Hval5 & Htrain10 & Hval10).
  split_and!.
  - refine (Htrain5 (Mini.model 1 0) Mini.loader5 Mini.world0 _ _ _ _ _ _).
    + reflexivity.
    + by vm_compute.
    + reflexivity.
    + reflexivity.
  - refine (Hval5 (Mini.model 1 0) Mini.loader5 Mini.world0 _ _ _ _ _).
    + by vm_compute.
    + reflexivity.
    + (vm_compute; reflexivity).
  - refine (Htrain10 (Mini.model 1 0) Mini.loader10 Mini.world0
              (replicate 10 fzero) _ _ _ _).
    + reflexivity.
    + by vm_compute.
    + apply (Some_pair_eta _ _ (Mini.model 1 0)). vm_compute; reflexivity.
  - refine (Hval10 (Mini.model 1 0) Mini.loader10 Mini.world0 (replicate 10 2) _ _ _).
    + by vm_compute.
    + (vm_compute; reflexivity).
    + (vm_compute; repeat constructor).
Defined.

(** C5, as stated, fails: on a dataset name other than ['mnist'] and on
    a model name other than ['mlp'] the two functions raise nothing and
    return [None]. *)
Lemma unknown_names_return_None :
  get_loader (VStr "cifar10") Mini.base "train" (VInt 2) Mini.world0
  = (Ok None, Mini.world0) /\
  get_model (VStr "cnn") Mini.world0 = (Ok None, Mini.world0) /\
  ~ (exists e w',
       get_loader (VStr "cifar10") Mini.base "train" (VInt 2) Mini.world0
       = (Raise e, w')) /\
  ~ (exists e w', get_model (VStr "cnn") Mini.world0 = (Raise e, w')).
Proof.
  split_and!; [reflexivity|reflexivity|by intros (e & w' & [=])..].
Qed.

Lemma val_on_loader_accuracy_witness :
  exists w',
    val_on_loader (Mini.model 1 0) (Some Mini.loader10) Mini.world0
    = (Ok (mkValDict (accuracy (zsum (replicate 10 2))
                        (zsum (batch_size_of <$>
                                 (loader_iter Mini.loader10 (rng Mini.world0)).1))),
           set_training false (Mini.model 1 0)), w') /\
    grad_enabled w' = grad_enabled Mini.world0 /\
    calls w' = calls Mini.world0 ++
      concat (replicate (Z.to_nat (loader_len Mini.loader10))
                        (calls_of false predict_ops)).
Proof.
  apply (val_on_loader_accuracy (Mini.model 1 0) Mini.loader10 Mini.world0
           (replicate 10 2)).
  - by vm_compute.
  - vm_compute; reflexivity.
  - vm_compute. repeat constructor.
  - by vm_compute.
Defined.

Lemma train_on_batch_and_loader_witness :
  train_on_batch (Mini.model 1 0) ([3; 14], [3; 4]) Mini.world0
  = (Ok (item ([0] : Tensor),
         sgd_step (backprop ([0] : Tensor) (zero_grads (Mini.model 1 0)))),
     log_calls [OpZeroGrad; OpForward; OpLogSoftmax; OpNllLoss RedMean;
                OpBackward; OpStep] Mini.world0) /\
  exists self' w',
    train_on_loader (Mini.model 1 0) (Some Mini.loader10) Mini.world0
    = (Ok (mkTrainDict (mean (replicate 10 fzero)), self'), w') /\
    calls w' = calls Mini.world0 ++
      concat (replicate (Z.to_nat (loader_len Mini.loader10))
                        (calls_of true train_ops)).
Proof.
  destruct train_on_batch_and_loader as (Hbatch & Hloader).
  split.
  - apply (Hbatch (Mini.model 1 0) [3; 14] [3; 4] Mini.world0 [3; 14] [0]).
    + reflexivity.
    + vm_compute; reflexivity.
    + vm_compute; reflexivity.
  - eexists.
    apply (Hloader (Mini.model 1 0) Mini.loader10 Mini.world0
             (replicate 10 fzero)).
    + reflexivity.
    + by vm_compute.
    + apply (Some_pair_eta _ _ (Mini.model 1 0)). vm_compute; reflexivity.
Defined.

Lemma state_dict_round_trip_witness :
  exists fresh',
    set_state_dict (Mini.model 1 0) (get_state_dict (Mini.model 3 1)) = Ok fresh' /\
    get_state_dict fresh' = get_state_dict (Mini.model 3 1) /\
    forall batch w,
      predict_on_batch fresh' batch w = predict_on_batch (Mini.model 3 1) batch w.
Proof.
  apply (state_dict_round_trip (Mini.model 3 1) (Mini.model 1 0)).
  - split_and!.
    + reflexivity.
    + reflexivity.
    + assert (Hshape : forall a c,
                map_Forall (fun _ t => shape t = [1]) (state_dict (Mini.model a c))).
      { intros a c. apply map_Forall_to_list. vm_compute. repeat constructor. }
      intros k ta tb Ha Hb.
      by rewrite (Hshape 3 1 k ta Ha), (Hshape 1 0 k tb Hb).
  - reflexivity.
Defined.


(** ** The further properties on the small framework *)

Lemma empty_loader_division_witness :
  (exists w',
     train_on_loader (Mini.model 1 0) (Some Mini.empty_loader) Mini.world0
     = (Raise ZeroDivisionError, w') /\
     calls w' = calls Mini.world0 /\ stdout w' = stdout Mini.world0) /\
  (exists w',
     val_on_loader (Mini.model 1 0) (Some Mini.empty_loader) Mini.world0
     = (Raise ZeroDivisionError, w') /\
     calls w' = calls Mini.world0 /\ stdout w' = stdout Mini.world0 /\
     grad_enabled w' = grad_enabled Mini.world0).
Proof.
  apply (empty_loader_division (Mini.model 1 0) Mini.empty_loader Mini.world0).
  reflexivity.
Defined.

Lemma train_on_batch_gradients_witness :
  exists x self' w' gs,
    train_on_batch (Mini.model 1 0) ([3; 14], [3; 4]) Mini.world0
    = (Ok (x, self'), w') /\
    batch_gradients (Mini.model 1 0) ([3; 14], [3; 4]) = Some gs /\
    forall i p', parameters self' !! i = Some p' -> grad p' = gs !! i.
Proof.
  eexists fzero, _, _.
  assert (Hrun : train_on_batch (Mini.model 1 0) ([3; 14], [3; 4]) Mini.world0
                 = (Ok (fzero, default (Mini.model 1 0)
                                 (snd <$> train_step (Mini.model 1 0)
                                            ([3; 14], [3; 4]))),
                    log_calls train_ops Mini.world0)).
  { apply train_on_batch_step; [reflexivity|].
    apply Some_pair_eta. vm_compute; reflexivity. }
  destruct (train_on_batch_gradients _ _ _ _ _ _ Hrun) as (gs & Hgs & Hgrad).
  exists gs. split; [exact Hrun|]. by split.
Defined.

Lemma train_on_batch_keeps_architecture_witness :
  exists x self' w',
    train_on_batch (Mini.model 1 0) ([3; 14], [3; 4]) Mini.world0
    = (Ok (x, self'), w') /\
    input_size self' = input_size (Mini.model 1 0) /\
    dom (state_dict self') = dom (state_dict (Mini.model 1 0)) /\
    param_group (opt self') = param_group (opt (Mini.model 1 0)) /\
    optimizer_wf self'.
Proof.
  eexists fzero, _, _.
  assert (Hrun : train_on_batch (Mini.model 1 0) ([3; 14], [3; 4]) Mini.world0
                 = (Ok (fzero, default (Mini.model 1 0)
                                 (snd <$> train_step (Mini.model 1 0)
                                            ([3; 14], [3; 4]))),
                    log_calls train_ops Mini.world0)).
  { apply train_on_batch_step; [reflexivity|].
    apply Some_pair_eta. vm_compute; reflexivity. }
  destruct (train_on_batch_keeps_architecture _ _ _ _ _ _ Hrun)
    as (Hin & _ & Hdom & _ & Hgroup & Hwf).
  split; [exact Hrun|]. by split_and!.
Defined.

Lemma matches_bounds_witness :
  0 <= 1 <= Z.of_nat (length [3; 4]) /\
  (1 = Z.of_nat (length [3; 4]) <-> [3; 5] = [3; 4]).
Proof.
  apply (matches_bounds [3; 5] [3; 4] 1); reflexivity.
Defined.

Lemma set_state_dict_accepted_witness :
  get_state_dict (Mini.model 3 1) = get_state_dict (Mini.model 3 1) /\
  dom (sd_model (get_state_dict (Mini.model 3 1)))
  = dom (state_dict (Mini.model 1 0)) /\
  input_size (Mini.model 3 1) = input_size (Mini.model 1 0) /\
  training (Mini.model 3 1) = training (Mini.model 1 0) /\
  grad <$> parameters (Mini.model 3 1) = grad <$> parameters (Mini.model 1 0).
Proof.
  apply (set_state_dict_accepted (Mini.model 1 0)
           (get_state_dict (Mini.model 3 1)) (Mini.model 3 1)).
  reflexivity.
Defined.

Lemma train_on_loader_progress_lines_witness :
  exists r w' out,
    train_on_loader (Mini.model 1 0) (Some Mini.loader10) Mini.world0
    = (Ok r, w') /\
    stdout w' = stdout Mini.world0 ++ out /\
    10 <= Z.of_nat (length out) <= 19 /\
    (loader_len Mini.loader10 mod 10 = 0 -> Z.of_nat (length out) = 10).
Proof.
  edestruct (train_on_loader_run (Mini.model 1 0) Mini.loader10 Mini.world0
               (replicate 10 fzero)) as (w' & Hrun & _).
  - reflexivity.
  - by vm_compute.
  - apply (Some_pair_eta _ _ (Mini.model 1 0)). vm_compute; reflexivity.
  - destruct (train_on_loader_progress_lines (Mini.model 1 0) Mini.loader10
                Mini.world0 _ w' ltac:(by vm_compute) Hrun) as (out & Hout).
    eexists _, w', out. split; [exact Hrun|exact Hout].
Defined.

